(** * BetterUnoGame: the multiplayer room hook [useRoomSystem]

    A shallow embedding of [src/hooks/useRoomSystem.ts] and of the types of
    [src/types/Room.ts].  A [setState] updater of the hook becomes a
    function from the previous [RoomSystemState] to the next one; the
    callbacks that close over the rendered state ([playCard], [drawCard])
    are modelled with the rendered state equal to the state the updater
    receives, that is, one call at a time.  [setState] queues its updater
    and React runs it after the callback has returned: the state a callback
    is given here is the state once its updater has run, and what the
    callback itself returns is modelled as it stands at the return.  Of the
    calls into [socketService] the model keeps the broadcasts a game
    callback sends before it queues its updater.

    JavaScript values are modelled as follows.
    - [string] for strings, [bool] for booleans.
    - [Z] for the integer-valued numbers the hook stores and computes
      ([currentPlayers], [currentPlayerIndex], [count]); [%] is [Z.rem].
    - [list] for arrays; [option] for [T | null] and for optional fields,
      [None] standing for [null] or [undefined].
    - an array read [a[i]] is a lookup that yields [None] ([undefined]) out
      of range; a property read on [undefined] is the [Throw] outcome.

    The spreads [{ ...prev.currentRoom }] and [{ ...prev.gameState }] copy
    one level: the arrays and player objects an updater writes are shared
    with the snapshot it was given.  The model is the returned state, the
    one the next updater receives; an updater that returns [prev] has
    written nothing before it returns. *)

From stdpp Require Import base decidable option list strings.
From Stdlib Require Import ZArith Lia.

Local Open Scope Z_scope.
Local Open Scope string_scope.
Local Open Scope list_scope.

(** ** Types of [src/types/Card.ts] *)

(** Modelled from the spec: [CardColor] of [src/types/Card.ts], which the
    hook imports; the data model lists red, yellow, green, blue and wild. *)
Module CardColor.
Inductive t := red | yellow | green | blue | wild.
End CardColor.
Abbreviation CardColor := CardColor.t.

(** Modelled from the spec: the card [type] tag of [src/types/Card.ts]:
    number, skip, reverse, draw-two, wild and wild-draw-four. *)
Module CardType.
Inductive t := number | skip | reverse | draw_two | wild | wild_draw_four.
End CardType.
Abbreviation CardType := CardType.t.

(** Modelled from the spec: a [Card] has a unique id, a color, a type and an
    optional numeric value. *)
Module Card.
Record t := mk { id : string; color : CardColor; type : CardType; value : option Z }.
End Card.
Abbreviation Card := Card.t.

(** Modelled from the spec: an in-game [Player]; the fields are the ones
    [initializeGameState] writes. *)
Module Player.
Record t := mk {
  id : string;
  name : string;
  cards : list Card;
  isHuman : bool;
  hasCalledUno : bool
}.
End Player.
Abbreviation Player := Player.t.

Inductive Direction := clockwise | counter_clockwise.
Inductive GamePhase := dealing | playing | finished.

(** Modelled from the spec: [GameState] of [src/types/Card.ts]; the fields
    are the ones the hook reads and writes.  [topCard] and the entries of
    [discardPile] are [option Card]: [initializeGameState] stores
    [undefined] there when the deck is exhausted by the deal. *)
Module GameState.
Record t := mk {
  players : list Player;
  currentPlayerIndex : Z;
  direction : Direction;
  topCard : option Card;
  drawPile : list Card;
  discardPile : list (option Card);
  gamePhase : GamePhase;
  wildColor : option CardColor;
  winner : option Player;
  isBlockAllActive : bool
}.
End GameState.
Abbreviation GameState := GameState.t.

(** ** Types of [src/types/Room.ts] *)

Inductive RoomStatus := status_waiting | status_playing | status_finished.

Module RoomPlayer.
Record t := mk {
  id : string;
  name : string;
  isHost : bool;
  isReady : bool;
  joinedAt : Z
}.
End RoomPlayer.
Abbreviation RoomPlayer := RoomPlayer.t.

Module Room.
Record t := mk {
  id : string;
  name : string;
  hostId : string;
  hostName : string;
  maxPlayers : Z;
  currentPlayers : Z;
  hasPassword : bool;
  password : option string;
  players : list RoomPlayer;
  status : RoomStatus;
  createdAt : Z;
  gameInProgress : bool
}.
End Room.
Abbreviation Room := Room.t.

Inductive RoomEvent :=
  | PLAYER_JOINED (player : RoomPlayer)
  | PLAYER_LEFT (playerId : string)
  | PLAYER_KICKED (playerId : string)
  | ROOM_UPDATED (room : Room)
  | GAME_STARTED
  | GAME_ENDED
  | HOST_CHANGED (newHostId : string)
  | KICKED_FROM_ROOM.

(** ** The hook's state *)

Record RoomSystemState := mkState {
  currentRoom : option Room;
  currentPlayerId : option string;
  isHost : bool;
  activeRooms : list Room;
  loading : bool;
  error : option string;
  isConnected : bool;
  gameState : option GameState
}.

Definition initialState : RoomSystemState :=
  mkState None None false [] false None false None.

(** ** JavaScript helpers *)

(** [!s] for [s : string | null]: [null] and the empty string are falsy. *)
Definition falsy_string (s : option string) : bool :=
  match s with
  | None => true
  | Some s => bool_decide (s = "")
  end.

(** [a[i]] for a number [i]: [undefined] below zero and past the end. *)
Definition js_index {A} (a : list A) (i : Z) : option A :=
  if bool_decide (i < 0) then None else a !! Z.to_nat i.

(** [a.filter((x, index) => f x index)], the callback reading the index. *)
Fixpoint filter_index {A} (f : A → nat → bool) (index : nat) (a : list A) : list A :=
  match a with
  | [] => []
  | x :: rest =>
      if f x index then x :: filter_index f (S index) rest
      else filter_index f (S index) rest
  end.

(** How an updater ends: with the next state, or with the [TypeError] of a
    property read on [undefined]. *)
Inductive Completion (A : Type) :=
  | Normal (a : A)
  | Throw.
Arguments Normal {A} a.
Arguments Throw {A}.

(** ** Field updates (object spread followed by assignments) *)

Definition room_with_players (r : Room) (ps : list RoomPlayer) (n : Z) : Room :=
  Room.mk (Room.id r) (Room.name r) (Room.hostId r) (Room.hostName r)
    (Room.maxPlayers r) n (Room.hasPassword r) (Room.password r) ps
    (Room.status r) (Room.createdAt r) (Room.gameInProgress r).

Definition room_with_host (r : Room) (h : string) (ps : list RoomPlayer) : Room :=
  Room.mk (Room.id r) (Room.name r) h (Room.hostName r)
    (Room.maxPlayers r) (Room.currentPlayers r) (Room.hasPassword r)
    (Room.password r) ps (Room.status r) (Room.createdAt r)
    (Room.gameInProgress r).

Definition room_started (r : Room) : Room :=
  Room.mk (Room.id r) (Room.name r) (Room.hostId r) (Room.hostName r)
    (Room.maxPlayers r) (Room.currentPlayers r) (Room.hasPassword r)
    (Room.password r) (Room.players r) status_playing (Room.createdAt r) true.

Definition set_isHost (p : RoomPlayer) (b : bool) : RoomPlayer :=
  RoomPlayer.mk (RoomPlayer.id p) (RoomPlayer.name p) b (RoomPlayer.isReady p)
    (RoomPlayer.joinedAt p).

Definition with_currentRoom (s : RoomSystemState) (r : Room) : RoomSystemState :=
  mkState (Some r) (currentPlayerId s) (isHost s) (activeRooms s) (loading s)
    (error s) (isConnected s) (gameState s).

Definition with_isHost (s : RoomSystemState) (b : bool) : RoomSystemState :=
  mkState (currentRoom s) (currentPlayerId s) b (activeRooms s) (loading s)
    (error s) (isConnected s) (gameState s).

Definition with_gameState (s : RoomSystemState) (g : GameState) : RoomSystemState :=
  mkState (currentRoom s) (currentPlayerId s) (isHost s) (activeRooms s)
    (loading s) (error s) (isConnected s) (Some g).

Definition set_cards (p : Player) (cs : list Card) : Player :=
  Player.mk (Player.id p) (Player.name p) cs (Player.isHuman p)
    (Player.hasCalledUno p).

(** ** The room-stream listener (lines 341-397) *)

Definition kickedMessage : string := "Bạn đã bị kick khỏi phòng".

Definition applyRoomEvent (event : RoomEvent) (prev : RoomSystemState)
  : RoomSystemState :=
  match event with
  | PLAYER_JOINED player =>
      match currentRoom prev with
      | Some room =>
          (* updatedRoom.players.push(event.player); updatedRoom.currentPlayers++ *)
          with_currentRoom prev
            (room_with_players room (Room.players room ++ [player])
               (Room.currentPlayers room + 1))
      | None => prev
      end
  | PLAYER_LEFT playerId =>
      match currentRoom prev with
      | Some room =>
          with_currentRoom prev
            (room_with_players room
               (filter (λ p, RoomPlayer.id p ≠ playerId) (Room.players room))
               (Room.currentPlayers room - 1))
      | None => prev
      end
  | HOST_CHANGED newHostId =>
      let newIsHost := bool_decide (currentPlayerId prev = Some newHostId) in
      match currentRoom prev with
      | Some room =>
          with_isHost
            (with_currentRoom prev
               (room_with_host room newHostId
                  ((λ p, set_isHost p (bool_decide (RoomPlayer.id p = newHostId)))
                     <$> Room.players room)))
            newIsHost
      | None => with_isHost prev newIsHost
      end
  | GAME_STARTED =>
      match currentRoom prev with
      | Some room => with_currentRoom prev (room_started room)
      | None => prev
      end
  | KICKED_FROM_ROOM =>
      mkState None None false (activeRooms prev) (loading prev)
        (Some kickedMessage) (isConnected prev) None
  | _ => prev
  end.

(** ** [initializeGameState] (lines 45-91)

    [shuffleDeck(createDeck())] lives in [src/utils/cardUtils], outside the
    hook: the shuffled deck is a parameter. *)

(** [room.players.map(roomPlayer => ({ ... }))] *)
Definition toPlayer (roomPlayer : RoomPlayer) : Player :=
  Player.mk (RoomPlayer.id roomPlayer) (RoomPlayer.name roomPlayer) [] true false.

(** One [players.forEach] pass of the deal: each player in roster order gets
    [deck[cardIndex++]] while [cardIndex < deck.length]. *)
Fixpoint deal_round (deck : list Card) (cardIndex : nat) (players : list Player)
  : list Player * nat :=
  match players with
  | [] => ([], cardIndex)
  | player :: rest =>
      match deck !! cardIndex with
      | Some c =>
          let '(rest', k) := deal_round deck (S cardIndex) rest in
          (set_cards player (Player.cards player ++ [c]) :: rest', k)
      | None =>
          let '(rest', k) := deal_round deck cardIndex rest in
          (player :: rest', k)
      end
  end.

(** [for (let i = 0; i < rounds; i++) players.forEach(...)] *)
Fixpoint deal (rounds : nat) (deck : list Card) (cardIndex : nat)
  (players : list Player) : list Player * nat :=
  match rounds with
  | O => (players, cardIndex)
  | S rounds' =>
      let '(players', k) := deal_round deck cardIndex players in
      deal rounds' deck k players'
  end.

Definition is_number (c : Card) : bool :=
  match Card.type c with CardType.number => true | _ => false end.

(** [while (topCardIndex < deck.length && deck[topCardIndex].type !== 'number')
    topCardIndex++], at most [fuel] iterations. *)
Fixpoint scan_top (fuel : nat) (deck : list Card) (topCardIndex : nat) : nat :=
  match fuel with
  | O => topCardIndex
  | S fuel' =>
      match deck !! topCardIndex with
      | Some c =>
          if is_number c then topCardIndex
          else scan_top fuel' deck (S topCardIndex)
      | None => topCardIndex
      end
  end.

Definition initializeGameState (deck : list Card) (room : Room) : GameState :=
  let players := toPlayer <$> Room.players room in
  let '(players, cardIndex) := deal 7 deck 0 players in
  let topCardIndex := scan_top (length deck) deck cardIndex in
  (* deck[topCardIndex] || deck[cardIndex] *)
  let topCard :=
    match deck !! topCardIndex with
    | Some c => Some c
    | None => deck !! cardIndex
    end in
  let remainingDeck :=
    filter_index
      (λ _ index, bool_decide (index ≠ topCardIndex) && bool_decide (cardIndex ≤ index)%nat)
      0 deck in
  GameState.mk players 0 clockwise topCard remainingDeck [topCard] playing
    None None false.

(** The [setState] of line 87. *)
Definition startWith (deck : list Card) (room : Room) (prev : RoomSystemState)
  : RoomSystemState :=
  with_gameState prev (initializeGameState deck room).

(** Every card slot a game state holds: the hands in roster order, the draw
    pile, the discard pile. *)
Definition hands (g : GameState) : list Card :=
  concat (Player.cards <$> GameState.players g).

Definition all_cards (g : GameState) : list (option Card) :=
  (Some <$> hands g) ++ (Some <$> GameState.drawPile g) ++ GameState.discardPile g.

(** ** [playCard] (lines 225-266) *)

Definition is_wild (c : Card) : bool :=
  match Card.type c with CardType.wild | CardType.wild_draw_four => true | _ => false end.

(** The [setState] updater of [playCard]. *)
Definition playCard_update (playerId : string) (card : Card)
  (chosenColor : option CardColor) (prev : RoomSystemState)
  : Completion RoomSystemState :=
  match gameState prev with
  | None => Normal prev
  | Some g =>
      let player := list_find (λ p, Player.id p = playerId) (GameState.players g) in
      let currentPlayer := js_index (GameState.players g) (GameState.currentPlayerIndex g) in
      match player with
      | None => Normal prev
      | Some (i, player) =>
          match currentPlayer with
          | None => Throw
          | Some currentPlayer =>
              if bool_decide (Player.id player ≠ Player.id currentPlayer) then Normal prev
              else
                let player' :=
                  set_cards player
                    (filter (λ c, Card.id c ≠ Card.id card) (Player.cards player)) in
                let players' := <[i := player']> (GameState.players g) in
                let discardPile' := GameState.discardPile g ++ [Some card] in
                let wildColor' :=
                  if is_wild card then Some (default CardColor.red chosenColor) else None in
                if bool_decide (length (Player.cards player') = 0%nat) then
                  Normal (with_gameState prev
                    (GameState.mk players' (GameState.currentPlayerIndex g)
                       (GameState.direction g) (Some card) (GameState.drawPile g)
                       discardPile' finished wildColor' (Some player')
                       (GameState.isBlockAllActive g)))
                else
                  Normal (with_gameState prev
                    (GameState.mk players'
                       (Z.rem (GameState.currentPlayerIndex g + 1)
                          (Z.of_nat (length players')))
                       (GameState.direction g) (Some card) (GameState.drawPile g)
                       discardPile' (GameState.gamePhase g) wildColor'
                       (GameState.winner g) (GameState.isBlockAllActive g)))
          end
      end
  end.

(** The callback: the guard on the rendered state, then the updater. *)
Definition playCard (playerId : string) (card : Card)
  (chosenColor : option CardColor) (state : RoomSystemState)
  : Completion RoomSystemState :=
  if negb (bool_decide (is_Some (gameState state))) || falsy_string (currentPlayerId state)
  then Normal state
  else playCard_update playerId card chosenColor state.

(** ** [drawCard] (lines 268-295) *)

(** [a.pop()] on a non-empty array: the shortened array and its last entry. *)
Definition pop {A} (a : list A) : option (list A * A) :=
  match last a with
  | Some x => Some (take (pred (length a)) a, x)
  | None => None
  end.

(** The [for] loop of [drawCard]: the draw pile, the player's hand and
    [drawnCards] after [count] iterations. *)
Fixpoint draw_loop (count : nat) (drawPile cards drawnCards : list Card)
  : list Card * list Card * list Card :=
  match count with
  | O => (drawPile, cards, drawnCards)
  | S count' =>
      match pop drawPile with
      | Some (drawPile', card) =>
          draw_loop count' drawPile' (cards ++ [card]) (drawnCards ++ [card])
      | None => draw_loop count' drawPile cards drawnCards
      end
  end.

(** The [setState] updater of [drawCard], paired with the [drawnCards] it
    fills. *)
Definition drawCard_update (playerId : string) (count : Z) (prev : RoomSystemState)
  : RoomSystemState * list Card :=
  match gameState prev with
  | None => (prev, [])
  | Some g =>
      match list_find (λ p, Player.id p = playerId) (GameState.players g) with
      | None => (prev, [])
      | Some (i, player) =>
          let '(drawPile', cards', drawnCards) :=
            draw_loop (Z.to_nat count) (GameState.drawPile g) (Player.cards player) [] in
          (with_gameState prev
             (GameState.mk (<[i := set_cards player cards']> (GameState.players g))
                (GameState.currentPlayerIndex g) (GameState.direction g)
                (GameState.topCard g) drawPile' (GameState.discardPile g)
                (GameState.gamePhase g) (GameState.wildColor g)
                (GameState.winner g) (GameState.isBlockAllActive g)),
           drawnCards)
      end
  end.

(** The guard of the callback, then the updater it queues: the state and
    the contents of the [drawnCards] array once React has run the updater. *)
Definition drawCard_settled (playerId : string) (count : Z) (state : RoomSystemState)
  : RoomSystemState * list Card :=
  if negb (bool_decide (is_Some (gameState state))) || falsy_string (currentPlayerId state)
  then (state, [])
  else drawCard_update playerId count state.

(** The callback ([count] defaults to 1 at the call site).  [return
    drawnCards] runs right after [setState] has queued the updater, so the
    array is empty when the call returns; the updater fills that same array
    when React runs it.  [drawCard] pairs the state once the updater has
    run with the array as the call returns it. *)
Definition drawCard (playerId : string) (count : Z) (state : RoomSystemState)
  : RoomSystemState * list Card :=
  ((drawCard_settled playerId count state).1, []).

(** The array [drawCard] returned, once React has run the queued updater. *)
Definition drawnCards_filled (playerId : string) (count : Z) (state : RoomSystemState)
  : list Card :=
  (drawCard_settled playerId count state).2.

(** ** What the game callbacks send (lines 229, 272, 301)

    Each game callback hands its arguments to [socketService] after its
    guard and before it queues its updater. *)
Inductive Broadcast :=
  | broadcastCardPlay (playerId : string) (card : Card) (chosenColor : option CardColor)
  | broadcastDrawCard (playerId : string) (count : Z)
  | broadcastUnoCall (playerId : string).

Definition playCard_sends (playerId : string) (card : Card)
  (chosenColor : option CardColor) (state : RoomSystemState) : list Broadcast :=
  if negb (bool_decide (is_Some (gameState state))) || falsy_string (currentPlayerId state)
  then []
  else [broadcastCardPlay playerId card chosenColor].

Definition drawCard_sends (playerId : string) (count : Z) (state : RoomSystemState)
  : list Broadcast :=
  if negb (bool_decide (is_Some (gameState state))) || falsy_string (currentPlayerId state)
  then []
  else [broadcastDrawCard playerId count].

(** ** The game-stream listener (lines 400-418)

    The event is untyped in the source; the tags the listener names are
    constructors, any other tag is [OTHER_GAME_EVENT]. *)
Inductive GameEvent :=
  | GAME_STATE_UPDATE (gameState : GameState)
  | CARD_PLAYED
  | CARD_DRAWN
  | UNO_CALLED
  | OTHER_GAME_EVENT.

Definition applyGameEvent (event : GameEvent) (prev : RoomSystemState)
  : RoomSystemState :=
  match event with
  | GAME_STATE_UPDATE g => with_gameState prev g
  | _ => prev
  end.

(** ** Notions the properties are stated with *)

(** The room entries that carry a given id, and the entries flagged host. *)
Definition entries_with_id (playerId : string) (ps : list RoomPlayer) : list RoomPlayer :=
  filter (λ p, RoomPlayer.id p = playerId) ps.

Definition hosts (ps : list RoomPlayer) : list RoomPlayer :=
  filter (λ p, RoomPlayer.isHost p = true) ps.

(** [currentPlayers == players.length] on the local room, when there is one. *)
Definition players_consistent (s : RoomSystemState) : Prop :=
  ∀ room, currentRoom s = Some room →
    Room.currentPlayers room = Z.of_nat (length (Room.players room)).

(** The guard both game callbacks start with lets the call through. *)
Definition in_game (s : RoomSystemState) (g : GameState) : Prop :=
  gameState s = Some g ∧ falsy_string (currentPlayerId s) = false.

(** [players.find(p => p.id === playerId)] returns the entry at [i]: the
    first entry of the roster with that id. *)
Definition found_at (playerId : string) (ps : list Player) (i : nat) (player : Player) : Prop :=
  ps !! i = Some player ∧ Player.id player = playerId ∧
  ∀ j q, ps !! j = Some q → (j < i)%nat → Player.id q ≠ playerId.

(** The advance rule in the spec's words: one position in the current
    direction, modulo the roster size. *)
Definition advance_in_direction (d : Direction) (index size : Z) : Z :=
  match d with
  | clockwise => (index + 1) mod size
  | counter_clockwise => (index - 1) mod size
  end.

(** ** Sample data *)

Definition sampleCard (id : string) (t : CardType) : Card := Card.mk id CardColor.red t None.

Definition sampleMember (id : string) : RoomPlayer := RoomPlayer.mk id id false false 0.

Definition sampleRoom (ps : list RoomPlayer) : Room :=
  Room.mk "r1" "room" "a" "a" 4 (Z.of_nat (length ps)) false None ps
    status_waiting 0 false.

Definition inRoom (ps : list RoomPlayer) : RoomSystemState :=
  mkState (Some (sampleRoom ps)) (Some "a") true [] false None true None.

(** Eight cards, seven numbers and then a skip: dealt to one player, no number
    card is left for the scan. *)
Definition deck8 : list Card :=
  [sampleCard "c1" CardType.number; sampleCard "c2" CardType.number; sampleCard "c3" CardType.number;
   sampleCard "c4" CardType.number; sampleCard "c5" CardType.number; sampleCard "c6" CardType.number;
   sampleCard "c7" CardType.number; sampleCard "c8" CardType.skip].

(** Nine cards: the scan passes a skip and stops at a number. *)
Definition deck9 : list Card :=
  [sampleCard "c1" CardType.number; sampleCard "c2" CardType.number; sampleCard "c3" CardType.number;
   sampleCard "c4" CardType.number; sampleCard "c5" CardType.number; sampleCard "c6" CardType.number;
   sampleCard "c7" CardType.number; sampleCard "c8" CardType.skip; sampleCard "c9" CardType.number].

(** Three players, counter-clockwise, player a to move with two cards. *)
Definition playerA : Player :=
  Player.mk "a" "a" [sampleCard "c1" CardType.number; sampleCard "c2" CardType.skip] true false.
Definition playerB : Player := Player.mk "b" "b" [sampleCard "c3" CardType.number] true false.
Definition playerC : Player := Player.mk "c" "c" [sampleCard "c7" CardType.reverse] true false.

Definition game3 : GameState :=
  GameState.mk [playerA; playerB; playerC] 0 counter_clockwise
    (Some (sampleCard "c9" CardType.number))
    [sampleCard "c4" CardType.number; sampleCard "c5" CardType.number; sampleCard "c6" CardType.wild]
    [Some (sampleCard "c9" CardType.number)] playing None None false.

Definition state3 : RoomSystemState :=
  mkState (Some (sampleRoom [sampleMember "a"; sampleMember "b"; sampleMember "c"]))
    (Some "a") true [] false None true (Some game3).

(** ** [callUno] (lines 297-315) *)

Definition set_hasCalledUno (p : Player) (b : bool) : Player :=
  Player.mk (Player.id p) (Player.name p) (Player.cards p) (Player.isHuman p) b.

Definition game_with_players (g : GameState) (ps : list Player) : GameState :=
  GameState.mk ps (GameState.currentPlayerIndex g) (GameState.direction g)
    (GameState.topCard g) (GameState.drawPile g) (GameState.discardPile g)
    (GameState.gamePhase g) (GameState.wildColor g) (GameState.winner g)
    (GameState.isBlockAllActive g).

(** The [setState] updater of [callUno]: it returns a fresh state object in
    every branch past the first. *)
Definition callUno_update (playerId : string) (prev : RoomSystemState)
  : RoomSystemState :=
  match gameState prev with
  | None => prev
  | Some g =>
      match list_find (λ p, Player.id p = playerId) (GameState.players g) with
      | Some (i, player) =>
          if bool_decide (length (Player.cards player) = 1%nat)
          then with_gameState prev
                 (game_with_players g
                    (<[i := set_hasCalledUno player true]> (GameState.players g)))
          else with_gameState prev g
      | None => with_gameState prev g
      end
  end.

(** The callback: its guard reads [gameState] only. *)
Definition callUno (playerId : string) (state : RoomSystemState) : RoomSystemState :=
  if negb (bool_decide (is_Some (gameState state))) then state
  else callUno_update playerId state.

Definition callUno_sends (playerId : string) (state : RoomSystemState) : list Broadcast :=
  if negb (bool_decide (is_Some (gameState state))) then []
  else [broadcastUnoCall playerId].

(** ** [createRoom], [joinRoom], [leaveRoom], [clearError] (lines 108-188,
    317-320)

    The reply of [socketService] is a parameter: [Some result] when the
    awaited call resolves, [None] when it rejects and the [catch] runs.
    No other update runs between the request and its reply. *)

Module RoomResult.
Record t := mk {
  success : bool;
  room : option Room;
  playerId : option string;
  error : option string
}.
End RoomResult.
Abbreviation RoomResult := RoomResult.t.

Definition createFailedMessage : string := "Không thể tạo phòng".
Definition joinFailedMessage : string := "Không thể tham gia phòng".
Definition serverErrorMessage : string := "Lỗi kết nối đến server".
Definition connectionLostMessage : string := "Mất kết nối đến server. Vui lòng thử lại.".

(** [e || d] for [e : string | undefined]. *)
Definition or_else (e : option string) (d : string) : string :=
  match e with
  | Some s => if bool_decide (s = "") then d else s
  | None => d
  end.

(** [setState(prev => ({ ...prev, loading: true, error: null }))] *)
Definition requestStarted (prev : RoomSystemState) : RoomSystemState :=
  mkState (currentRoom prev) (currentPlayerId prev) (isHost prev) (activeRooms prev)
    true None (isConnected prev) (gameState prev).

(** [setState(prev => ({ ...prev, loading: false, error: message }))] *)
Definition requestFailed (message : string) (prev : RoomSystemState) : RoomSystemState :=
  mkState (currentRoom prev) (currentPlayerId prev) (isHost prev) (activeRooms prev)
    false (Some message) (isConnected prev) (gameState prev).

Definition createRoom (outcome : option RoomResult) (state : RoomSystemState)
  : RoomSystemState * RoomResult :=
  let prev := requestStarted state in
  match outcome with
  | Some result =>
      if RoomResult.success result
         && bool_decide (is_Some (RoomResult.room result))
         && negb (falsy_string (RoomResult.playerId result))
      then (mkState (RoomResult.room result) (RoomResult.playerId result) true
              (activeRooms prev) false (error prev) (isConnected prev) None,
            result)
      else (requestFailed (or_else (RoomResult.error result) createFailedMessage) prev,
            result)
  | None =>
      (requestFailed serverErrorMessage prev,
       RoomResult.mk false None None (Some serverErrorMessage))
  end.

Definition joinRoom (outcome : option RoomResult) (state : RoomSystemState)
  : RoomSystemState * RoomResult :=
  let prev := requestStarted state in
  match outcome with
  | Some result =>
      if RoomResult.success result
         && bool_decide (is_Some (RoomResult.room result))
         && negb (falsy_string (RoomResult.playerId result))
      then (mkState (RoomResult.room result) (RoomResult.playerId result) false
              (activeRooms prev) false (error prev) (isConnected prev) None,
            result)
      else (requestFailed (or_else (RoomResult.error result) joinFailedMessage) prev,
            result)
  | None =>
      (requestFailed serverErrorMessage prev,
       RoomResult.mk false None None (Some serverErrorMessage))
  end.

Definition leaveRoom (prev : RoomSystemState) : RoomSystemState :=
  mkState None None false (activeRooms prev) (loading prev) (error prev)
    (isConnected prev) None.

Definition clearError (prev : RoomSystemState) : RoomSystemState :=
  mkState (currentRoom prev) (currentPlayerId prev) (isHost prev) (activeRooms prev)
    (loading prev) None (isConnected prev) (gameState prev).

(** ** [kickPlayer], [startGame], [toggleReady] (lines 190-222)

    The boolean and the result the transport answers with are parameters;
    a branch that does not reach the transport does not read them. *)

Definition kickPlayer (replySuccess : bool) (state : RoomSystemState) : bool :=
  if isHost state then replySuccess else false.

Definition toggleReady (replySuccess : bool) (state : RoomSystemState) : bool :=
  if negb (isHost state) then replySuccess else false.

Module StartResult.
Record t := mk { success : bool; error : option string }.
End StartResult.
Abbreviation StartResult := StartResult.t.

Definition with_error (s : RoomSystemState) (e : option string) : RoomSystemState :=
  mkState (currentRoom s) (currentPlayerId s) (isHost s) (activeRooms s) (loading s)
    e (isConnected s) (gameState s).

Definition startGame (result : StartResult) (deck : list Card) (state : RoomSystemState)
  : RoomSystemState * bool :=
  match currentRoom state with
  | Some room =>
      if isHost state then
        if StartResult.success result then (startWith deck room state, true)
        else if negb (falsy_string (StartResult.error result))
             then (with_error state (StartResult.error result), false)
             else (state, false)
      else (state, false)
  | None => (state, false)
  end.

(** ** Polling and the global stream (lines 30-42, 93-106, 325-338) *)

Definition checkConnection (connected : bool) (prev : RoomSystemState)
  : RoomSystemState :=
  mkState (currentRoom prev) (currentPlayerId prev) (isHost prev) (activeRooms prev)
    (loading prev) (error prev) connected (gameState prev).

Definition with_activeRooms (s : RoomSystemState) (rooms : list Room) : RoomSystemState :=
  mkState (currentRoom s) (currentPlayerId s) (isHost s) rooms (loading s)
    (error s) (isConnected s) (gameState s).

(** [connected] is [socketService.isSocketConnected()]; the listing is
    [Some rooms] when [getActiveRooms] resolves, [None] when it rejects (the
    [catch] only logs). *)
Definition loadActiveRooms (connected : bool) (listing : option (list Room))
  (state : RoomSystemState) : RoomSystemState :=
  if negb connected then with_activeRooms state []
  else match listing with
       | Some rooms => with_activeRooms state rooms
       | None => state
       end.

Inductive GlobalEvent :=
  | ROOMS_UPDATED (rooms : list Room)
  | CONNECTION_FAILED
  | OTHER_GLOBAL_EVENT.

Definition applyGlobalEvent (event : GlobalEvent) (prev : RoomSystemState)
  : RoomSystemState :=
  match event with
  | ROOMS_UPDATED rooms => with_activeRooms prev rooms
  | CONNECTION_FAILED =>
      mkState (currentRoom prev) (currentPlayerId prev) (isHost prev)
        (activeRooms prev) (loading prev) (Some connectionLostMessage) false
        (gameState prev)
  | OTHER_GLOBAL_EVENT => prev
  end.

(** ** Further notions and sample data *)

(** The fields that make up this client's membership and game. *)
Definition session (s : RoomSystemState)
  : option Room * option string * bool * option GameState :=
  (currentRoom s, currentPlayerId s, isHost s, gameState s).

(** The client is in [result.room] under [result.playerId], no game, no
    error. *)
Definition entered (asHost : bool) (result : RoomResult) (s : RoomSystemState) : Prop :=
  ∃ room playerId,
    RoomResult.success result = true
    ∧ RoomResult.room result = Some room
    ∧ RoomResult.playerId result = Some playerId ∧ playerId ≠ ""
    ∧ currentRoom s = Some room ∧ currentPlayerId s = Some playerId
    ∧ isHost s = asHost ∧ gameState s = None ∧ error s = None.

(** The request left the session of [state] alone and reports an error. *)
Definition refused (state s : RoomSystemState) : Prop :=
  session s = session state ∧ ∃ message, error s = Some message ∧ message ≠ "".

(** No room, no player id, no host flag, no game. *)
Definition torn_down (s : RoomSystemState) : Prop :=
  currentRoom s = None ∧ currentPlayerId s = None ∧ isHost s = false
  ∧ gameState s = None.

(** [currentPlayerIndex] is a position of the roster. *)
Definition index_in_range (g : GameState) : Prop :=
  0 ≤ GameState.currentPlayerIndex g < Z.of_nat (length (GameState.players g)).

(** What identifies a roster entry apart from its hand. *)
Definition profile (p : Player) : string * string * bool * bool :=
  (Player.id p, Player.name p, Player.isHuman p, Player.hasCalledUno p).

(** The cards a game state holds outside the discard pile. *)
Definition live_cards (g : GameState) : list Card := hands g ++ GameState.drawPile g.

(** Sixteen cards for two players: fourteen numbers are dealt, the scan
    passes a reverse and stops at the last card. *)
Definition deck16 : list Card :=
  [sampleCard "d0" CardType.number; sampleCard "d1" CardType.number;
   sampleCard "d2" CardType.number; sampleCard "d3" CardType.number;
   sampleCard "d4" CardType.number; sampleCard "d5" CardType.number;
   sampleCard "d6" CardType.number; sampleCard "d7" CardType.number;
   sampleCard "d8" CardType.number; sampleCard "d9" CardType.number;
   sampleCard "d10" CardType.number; sampleCard "d11" CardType.number;
   sampleCard "d12" CardType.number; sampleCard "d13" CardType.number;
   sampleCard "d14" CardType.reverse; sampleCard "d15" CardType.number].

Definition roomAB : Room := sampleRoom [sampleMember "a"; sampleMember "b"].

(** The sample game with [currentPlayerIndex] past the roster, as a snapshot
    may bring it. *)
Definition gameAstray : GameState :=
  GameState.mk [playerA; playerB; playerC] 5 counter_clockwise
    (Some (sampleCard "c9" CardType.number))
    [sampleCard "c4" CardType.number; sampleCard "c5" CardType.number;
     sampleCard "c6" CardType.wild]
    [Some (sampleCard "c9" CardType.number)] playing None None false.

Definition stateAstray : RoomSystemState :=
  mkState (Some (sampleRoom [sampleMember "a"; sampleMember "b"; sampleMember "c"]))
    (Some "a") true [] false None true (Some gameAstray).


(** A roster in which the id a occurs twice (two [PLAYER_JOINED] for a
    before the start); the second of the two has the turn. *)
Definition twinFirst : Player :=
  Player.mk "a" "first" [sampleCard "c1" CardType.number] true false.
Definition twinSecond : Player :=
  Player.mk "a" "second" [sampleCard "c7" CardType.reverse; sampleCard "c8" CardType.skip]
    true false.

Definition gameTwins : GameState :=
  GameState.mk [twinFirst; playerB; twinSecond] 2 clockwise
    (Some (sampleCard "c9" CardType.number))
    [sampleCard "c4" CardType.number] [Some (sampleCard "c9" CardType.number)]
    playing None None false.

Definition stateTwins : RoomSystemState :=
  mkState None (Some "a") false [] false None true (Some gameTwins).

Definition joinReply : RoomResult :=
  RoomResult.mk true (Some roomAB) (Some "b") None.

(** * Properties *)

(** ** The room-stream listener *)

Section RoomEvents.

Implicit Types (prev : RoomSystemState) (room : Room) (ps : list RoomPlayer).

Lemma entries_with_id_app playerId ps1 ps2 :
  entries_with_id playerId (ps1 ++ ps2)
  = entries_with_id playerId ps1 ++ entries_with_id playerId ps2.
Proof. apply filter_app. Qed.

(** [filter] splits a list: what [PLAYER_LEFT] keeps and what it drops. *)
Lemma kept_and_dropped playerId ps :
  (length (filter (λ p, RoomPlayer.id p ≠ playerId) ps)
   + length (entries_with_id playerId ps))%nat = length ps.
Proof.
  unfold entries_with_id.
  induction ps as [|p ps IH]; [done|].
  rewrite !filter_cons.
  destruct (decide (RoomPlayer.id p = playerId)) as [Heq|Hne].
  - rewrite decide_False by (intros H; apply H, Heq). simpl. lia.
  - rewrite decide_True by exact Hne. simpl. lia.
Qed.

Lemma hosts_after_change newHostId ps :
  length (hosts ((λ p, set_isHost p (bool_decide (RoomPlayer.id p = newHostId))) <$> ps))
  = length (entries_with_id newHostId ps).
Proof.
  unfold hosts, entries_with_id.
  induction ps as [|p ps IH]; [done|].
  rewrite fmap_cons, !filter_cons. simpl.
  destruct (decide (RoomPlayer.id p = newHostId)) as [Heq|Hne].
  - rewrite bool_decide_true by exact Heq.
    rewrite decide_True by reflexivity. simpl. by rewrite IH.
  - rewrite bool_decide_false by exact Hne.
    rewrite decide_False by discriminate. exact IH.
Qed.

(** What [PLAYER_LEFT] does to a room: the entries with the id go, all of
    them, and the counter drops by one whatever their number. *)
Lemma player_left_effect prev room playerId :
  currentRoom prev = Some room →
  ∃ room', currentRoom (applyRoomEvent (PLAYER_LEFT playerId) prev) = Some room'
    ∧ Room.currentPlayers room' = Room.currentPlayers room - 1
    ∧ Z.of_nat (length (Room.players room'))
      = Z.of_nat (length (Room.players room))
        - Z.of_nat (length (entries_with_id playerId (Room.players room))).
Proof.
  intros Hroom. simpl. rewrite Hroom. eexists. split; [reflexivity|].
  split; [reflexivity|]. simpl.
  pose proof (kept_and_dropped playerId (Room.players room)). lia.
Qed.

(** C2, as the code has it: [PLAYER_JOINED] on a state with a room appends
    the player at the end of [players] and adds one to [currentPlayers]
    without looking for the id, so each application adds exactly one entry
    with that id, also when the id is already there. *)
Theorem player_joined_appends prev room player :
  currentRoom prev = Some room →
  ∃ room', currentRoom (applyRoomEvent (PLAYER_JOINED player) prev) = Some room'
    ∧ Room.players room' = Room.players room ++ [player]
    ∧ Room.currentPlayers room' = Room.currentPlayers room + 1
    ∧ length (entries_with_id (RoomPlayer.id player) (Room.players room'))
      = S (length (entries_with_id (RoomPlayer.id player) (Room.players room))).
Proof.
  intros Hroom. simpl. rewrite Hroom. eexists. split; [reflexivity|].
  repeat split. simpl. rewrite entries_with_id_app, length_app.
  unfold entries_with_id at 2. rewrite filter_cons, decide_True by reflexivity.
  simpl. lia.
Qed.

Lemma player_joined_appends_witness :
  ∃ room', currentRoom (applyRoomEvent (PLAYER_JOINED (sampleMember "b"))
                          (inRoom [sampleMember "a"; sampleMember "b"])) = Some room'
    ∧ Room.players room' = [sampleMember "a"; sampleMember "b"; sampleMember "b"]
    ∧ Room.currentPlayers room' = 3
    ∧ length (entries_with_id "b" (Room.players room')) = 2%nat.
Proof.
  exact (player_joined_appends (inRoom [sampleMember "a"; sampleMember "b"])
           (sampleRoom [sampleMember "a"; sampleMember "b"]) (sampleMember "b")
           eq_refl).
Defined.

(** C2, the claim as stated, fails: player b is in the room, a second
    [PLAYER_JOINED] for b changes the state and leaves two entries for b. *)
Lemma player_joined_duplicates :
  sampleMember "b" ∈ [sampleMember "a"; sampleMember "b"]
  ∧ applyRoomEvent (PLAYER_JOINED (sampleMember "b"))
      (inRoom [sampleMember "a"; sampleMember "b"])
    ≠ inRoom [sampleMember "a"; sampleMember "b"]
  ∧ ∃ room', currentRoom (applyRoomEvent (PLAYER_JOINED (sampleMember "b"))
                            (inRoom [sampleMember "a"; sampleMember "b"])) = Some room'
      ∧ RoomPlayer.id <$> Room.players room' = ["a"; "b"; "b"].
Proof.
  split; [repeat constructor|]. split; [discriminate|].
  eexists. split; reflexivity.
Qed.

(** C4, as the code has it: every room-stream event keeps
    [currentPlayers == players.length], [PLAYER_LEFT] provided exactly one
    entry carries the leaving id (it drops every entry with the id and
    takes one off the counter). *)
Theorem room_event_keeps_count event prev :
  players_consistent prev →
  (∀ playerId room, event = PLAYER_LEFT playerId → currentRoom prev = Some room →
     length (entries_with_id playerId (Room.players room)) = 1%nat) →
  players_consistent (applyRoomEvent event prev).
Proof.
  intros Hinv Hleft room'.
  destruct event as [player|playerId|playerId|room0| | |newHostId| ]; simpl;
    try exact (Hinv room').
  - destruct (currentRoom prev) as [room|] eqn:Hroom; [|by rewrite Hroom].
    simpl. intros [= <-]. simpl. rewrite length_app. simpl.
    rewrite (Hinv room Hroom). lia.
  - destruct (currentRoom prev) as [room|] eqn:Hroom; [|by rewrite Hroom].
    simpl. intros [= <-]. simpl.
    pose proof (kept_and_dropped playerId (Room.players room)) as Hsplit.
    rewrite (Hleft playerId room eq_refl eq_refl) in Hsplit.
    rewrite (Hinv room Hroom). lia.
  - destruct (currentRoom prev) as [room|] eqn:Hroom; [|by rewrite Hroom].
    simpl. intros [= <-]. simpl. exact (Hinv room Hroom).
  - destruct (currentRoom prev) as [room|] eqn:Hroom; [|simpl; by rewrite Hroom].
    simpl. intros [= <-]. simpl. rewrite length_fmap. exact (Hinv room Hroom).
  - discriminate.
Qed.

Lemma room_event_keeps_count_witness :
  players_consistent (inRoom [sampleMember "a"; sampleMember "b"])
  ∧ players_consistent
      (applyRoomEvent (PLAYER_LEFT "b") (inRoom [sampleMember "a"; sampleMember "b"])).
Proof.
  assert (Hinv : players_consistent (inRoom [sampleMember "a"; sampleMember "b"])).
  { intros room [= <-]. reflexivity. }
  split; [exact Hinv|].
  apply (room_event_keeps_count (PLAYER_LEFT "b") _ Hinv).
  intros playerId room [= <-] [= <-]. reflexivity.
Defined.

(** C4, the claim as stated, fails: the room holds a alone and the counter
    says 1; [PLAYER_LEFT] for an absent id keeps a and sets the counter to 0. *)
Lemma player_left_absent_breaks_count :
  players_consistent (inRoom [sampleMember "a"])
  ∧ entries_with_id "zz" [sampleMember "a"] = []
  ∧ ∃ room', currentRoom (applyRoomEvent (PLAYER_LEFT "zz") (inRoom [sampleMember "a"]))
             = Some room'
      ∧ Room.players room' = [sampleMember "a"]
      ∧ Room.currentPlayers room' = 0
      ∧ ¬ players_consistent
            (applyRoomEvent (PLAYER_LEFT "zz") (inRoom [sampleMember "a"])).
Proof.
  split; [intros room [= <-]; reflexivity|]. split; [reflexivity|].
  eexists. split; [reflexivity|]. split; [reflexivity|]. split; [reflexivity|].
  intros Hinv. specialize (Hinv _ eq_refl). discriminate Hinv.
Qed.

End RoomEvents.

Section HostAndTeardown.

Implicit Types (prev : RoomSystemState) (room : Room).

(** The local flag is recomputed by id equality, with or without a room. *)
Lemma host_changed_local_flag prev newHostId :
  isHost (applyRoomEvent (HOST_CHANGED newHostId) prev)
  = bool_decide (currentPlayerId prev = Some newHostId).
Proof. simpl. by destruct (currentRoom prev). Qed.

(** C5, as the code has it: after [HOST_CHANGED] on a state with a room,
    an entry is flagged host exactly when its id is [newHostId], so the
    room has as many hosts as entries with that id (one when the id names
    one member, none when it names nobody); [hostId] is [newHostId] and
    the local flag is [currentPlayerId == newHostId]. *)
Theorem host_changed_flags prev room newHostId :
  currentRoom prev = Some room →
  ∃ room', currentRoom (applyRoomEvent (HOST_CHANGED newHostId) prev) = Some room'
    ∧ Room.hostId room' = newHostId
    ∧ RoomPlayer.id <$> Room.players room' = RoomPlayer.id <$> Room.players room
    ∧ (∀ p, p ∈ Room.players room' →
         RoomPlayer.isHost p = true ↔ RoomPlayer.id p = newHostId)
    ∧ length (hosts (Room.players room'))
      = length (entries_with_id newHostId (Room.players room))
    ∧ isHost (applyRoomEvent (HOST_CHANGED newHostId) prev)
      = bool_decide (currentPlayerId prev = Some newHostId).
Proof.
  intros Hroom. rewrite host_changed_local_flag.
  simpl. rewrite Hroom. eexists. split; [reflexivity|]. simpl.
  split; [reflexivity|]. split.
  { rewrite <- list_fmap_compose. by apply list_fmap_ext. }
  split.
  { intros p [q [-> _]]%list_elem_of_fmap. simpl.
    by rewrite bool_decide_eq_true. }
  split; [apply hosts_after_change | reflexivity].
Qed.

Lemma host_changed_flags_witness :
  ∃ room', currentRoom (applyRoomEvent (HOST_CHANGED "b")
                          (inRoom [sampleMember "a"; sampleMember "b"])) = Some room'
    ∧ Room.hostId room' = "b"
    ∧ RoomPlayer.id <$> Room.players room' = ["a"; "b"]
    ∧ (∀ p, p ∈ Room.players room' → RoomPlayer.isHost p = true ↔ RoomPlayer.id p = "b")
    ∧ length (hosts (Room.players room')) = 1%nat
    ∧ isHost (applyRoomEvent (HOST_CHANGED "b")
                (inRoom [sampleMember "a"; sampleMember "b"])) = false.
Proof.
  exact (host_changed_flags (inRoom [sampleMember "a"; sampleMember "b"])
           (sampleRoom [sampleMember "a"; sampleMember "b"]) "b" eq_refl).
Defined.

(** C5, the claim as stated, fails: the room holds a, the event names an id
    that is not in the room, and afterwards no entry is flagged host. *)
Lemma host_changed_unknown_id_no_host :
  Room.players (sampleRoom [sampleMember "a"]) ≠ []
  ∧ ∃ room', currentRoom (applyRoomEvent (HOST_CHANGED "zz") (inRoom [sampleMember "a"]))
             = Some room'
      ∧ Room.players room' = [sampleMember "a"]
      ∧ hosts (Room.players room') = []
      ∧ length (hosts (Room.players room')) ≠ 1%nat.
Proof.
  split; [discriminate|]. eexists. split; [reflexivity|].
  split; [reflexivity|]. split; [reflexivity|]. discriminate.
Qed.

(** C9: [KICKED_FROM_ROOM], from any state, sets [currentRoom] and
    [currentPlayerId] to null, [isHost] to false and [gameState] to null. *)
Theorem kicked_resets prev :
  currentRoom (applyRoomEvent KICKED_FROM_ROOM prev) = None
  ∧ currentPlayerId (applyRoomEvent KICKED_FROM_ROOM prev) = None
  ∧ isHost (applyRoomEvent KICKED_FROM_ROOM prev) = false
  ∧ gameState (applyRoomEvent KICKED_FROM_ROOM prev) = None.
Proof. repeat split. Qed.

(** The teardown keeps the fields it does not name and leaves the kick
    message in [error]. *)
Lemma kicked_keeps_rest prev :
  applyRoomEvent KICKED_FROM_ROOM prev
  = mkState None None false (activeRooms prev) (loading prev)
      (Some kickedMessage) (isConnected prev) None.
Proof. reflexivity. Qed.

(** Tags without a case leave the state as it is. *)
Lemma unhandled_events_ignored prev playerId room :
  applyRoomEvent (PLAYER_KICKED playerId) prev = prev
  ∧ applyRoomEvent (ROOM_UPDATED room) prev = prev
  ∧ applyRoomEvent GAME_ENDED prev = prev.
Proof. repeat split. Qed.

End HostAndTeardown.

(** ** [playCard] *)

Section PlayCard.

Implicit Types (state : RoomSystemState) (g : GameState) (player : Player).

Lemma find_found playerId (ps : list Player) i player :
  found_at playerId ps i player →
  list_find (λ p, Player.id p = playerId) ps = Some (i, player).
Proof.
  intros (Hi & Hid & Hfirst). apply list_find_Some.
  split; [exact Hi|]. split; [exact Hid|]. exact Hfirst.
Qed.

Lemma find_absent playerId (ps : list Player) :
  Forall (λ p, Player.id p ≠ playerId) ps →
  list_find (λ p, Player.id p = playerId) ps = None.
Proof. intros Hall. by apply list_find_None. Qed.

(** An index that reads an entry is a position of the array. *)
Lemma js_index_Some {A} (a : list A) (i : Z) (x : A) :
  js_index a i = Some x → 0 ≤ i < Z.of_nat (length a).
Proof.
  unfold js_index. case bool_decide_reflect; [discriminate|].
  intros Hi Hx. apply lookup_lt_Some in Hx. lia.
Qed.

Lemma guard_passes {A} state g (pass stop : A) :
  in_game state g →
  (if negb (bool_decide (is_Some (gameState state))) || falsy_string (currentPlayerId state)
   then stop else pass) = pass.
Proof.
  intros [Hg Hid]. rewrite Hg, Hid.
  by rewrite bool_decide_true by (by eexists).
Qed.

Lemma set_cards_same player : set_cards player (Player.cards player) = player.
Proof. by destruct player. Qed.

(** An accepted play, field by field.  The play is accepted as soon as
    the player found by id carries the id of [players[currentPlayerIndex]];
    nothing looks for the card in the hand. *)
Lemma playCard_accepted state g playerId card chosenColor i player currentPlayer :
  in_game state g →
  found_at playerId (GameState.players g) i player →
  js_index (GameState.players g) (GameState.currentPlayerIndex g) = Some currentPlayer →
  Player.id player = Player.id currentPlayer →
  let cards' := filter (λ c, Card.id c ≠ Card.id card) (Player.cards player) in
  ∃ g', playCard playerId card chosenColor state = Normal (with_gameState state g')
    ∧ GameState.players g' = <[i := set_cards player cards']> (GameState.players g)
    ∧ GameState.topCard g' = Some card
    ∧ GameState.discardPile g' = GameState.discardPile g ++ [Some card]
    ∧ GameState.drawPile g' = GameState.drawPile g
    ∧ GameState.direction g' = GameState.direction g
    ∧ GameState.isBlockAllActive g' = GameState.isBlockAllActive g
    ∧ GameState.wildColor g'
      = (if is_wild card then Some (default CardColor.red chosenColor) else None)
    ∧ (cards' = [] →
         GameState.gamePhase g' = finished
         ∧ GameState.winner g' = Some (set_cards player [])
         ∧ GameState.currentPlayerIndex g' = GameState.currentPlayerIndex g)
    ∧ (cards' ≠ [] →
         GameState.gamePhase g' = GameState.gamePhase g
         ∧ GameState.winner g' = GameState.winner g
         ∧ GameState.currentPlayerIndex g'
           = (GameState.currentPlayerIndex g + 1)
               mod Z.of_nat (length (GameState.players g))).
Proof.
  intros Hin Hfound Hcur Hid cards'.
  unfold playCard. rewrite (guard_passes _ g) by exact Hin.
  unfold playCard_update. rewrite (proj1 Hin), (find_found _ _ _ _ Hfound), Hcur.
  rewrite bool_decide_false by (intros Hne; apply Hne, Hid).
  simpl. fold cards'.
  destruct cards' as [|c rest] eqn:Hcards.
  - rewrite bool_decide_true by reflexivity.
    eexists. split; [reflexivity|]. simpl. repeat split; done.
  - rewrite bool_decide_false by discriminate.
    eexists. split; [reflexivity|]. simpl. repeat split; try done.
    rewrite length_insert. apply js_index_Some in Hcur.
    apply Z.rem_mod_nonneg; lia.
Qed.

(** C6, as the code has it: with a game state in which somebody sits at
    [currentPlayerIndex], [playCard] with a [playerId] other than that
    player's id hands back the state it was given: no hand, pile, top card,
    phase, index or [error] changes.  Nothing tells the caller: the state,
    [error] included, is the one given, and a call made with a local player
    id has sent its broadcast before the check.  With nobody at
    [currentPlayerIndex] the call made in a session with an id of the
    roster dies on [currentPlayer.id]; any other call hands back the state. *)
Theorem playCard_out_of_turn state g playerId card chosenColor :
  gameState state = Some g →
  (∀ currentPlayer,
     js_index (GameState.players g) (GameState.currentPlayerIndex g) = Some currentPlayer →
     playerId ≠ Player.id currentPlayer →
     playCard playerId card chosenColor state = Normal state)
  ∧ (js_index (GameState.players g) (GameState.currentPlayerIndex g) = None →
     (in_game state g ∧ (∃ p, p ∈ GameState.players g ∧ Player.id p = playerId) →
        playCard playerId card chosenColor state = Throw)
     ∧ (¬ (in_game state g ∧ ∃ p, p ∈ GameState.players g ∧ Player.id p = playerId) →
        playCard playerId card chosenColor state = Normal state))
  ∧ (falsy_string (currentPlayerId state) = false →
     playCard_sends playerId card chosenColor state
     = [broadcastCardPlay playerId card chosenColor]).
Proof.
  intros Hg. split; [|split].
  - intros currentPlayer Hcur Hne. unfold playCard.
    destruct (negb _ || _); [reflexivity|].
    unfold playCard_update. rewrite Hg, Hcur.
    destruct (list_find _ _) as [[i player]|] eqn:Hfind; [|reflexivity].
    apply list_find_Some in Hfind as (_ & Hid & _).
    rewrite bool_decide_true; [reflexivity|]. by rewrite Hid.
  - intros Hcur. unfold playCard. rewrite Hg.
    rewrite bool_decide_true by (by eexists). cbn [negb orb].
    destruct (falsy_string (currentPlayerId state)) eqn:Hid.
    { split; [|done]. intros [[_ Hfalse] _]. congruence. }
    unfold playCard_update. rewrite Hg, Hcur.
    destruct (list_find _ _) as [[i player]|] eqn:Hfind.
    + split; [done|]. intros Hnot. destruct Hnot.
      apply list_find_Some in Hfind as (Hi & Hpid & _).
      split; [by split|]. exists player.
      split; [by eapply list_elem_of_lookup_2|exact Hpid].
    + split; [|done]. intros [_ (p & Hp & Hpid)].
      apply list_find_None in Hfind.
      by destruct (proj1 (Forall_forall _ _) Hfind p Hp).
  - intros Hid. unfold playCard_sends. rewrite Hg, Hid.
    by rewrite bool_decide_true by (by eexists).
Qed.

Lemma playCard_out_of_turn_witness :
  (∀ currentPlayer,
     js_index (GameState.players game3) (GameState.currentPlayerIndex game3)
     = Some currentPlayer →
     "b" ≠ Player.id currentPlayer →
     playCard "b" (sampleCard "c3" CardType.number) None state3 = Normal state3)
  ∧ (js_index (GameState.players game3) (GameState.currentPlayerIndex game3) = None →
     (in_game state3 game3 ∧ (∃ p, p ∈ GameState.players game3 ∧ Player.id p = "b") →
        playCard "b" (sampleCard "c3" CardType.number) None state3 = Throw)
     ∧ (¬ (in_game state3 game3 ∧ ∃ p, p ∈ GameState.players game3 ∧ Player.id p = "b") →
        playCard "b" (sampleCard "c3" CardType.number) None state3 = Normal state3))
  ∧ (falsy_string (currentPlayerId state3) = false →
     playCard_sends "b" (sampleCard "c3" CardType.number) None state3
     = [broadcastCardPlay "b" (sampleCard "c3" CardType.number) None]).
Proof.
  exact (playCard_out_of_turn state3 game3 "b" (sampleCard "c3" CardType.number) None
           eq_refl).
Defined.

(** C6, the claim as stated, fails.  In the sample game with the index past
    the roster, player a is not the current player (nobody is) and the call
    is not turned down: the updater dies on [currentPlayer.id].  And where b
    plays out of turn in the sample game the state comes back unchanged
    with [error] still null, the play already broadcast: no NotYourTurn is
    reported anywhere. *)
Lemma playCard_out_of_turn_unreported :
  (js_index (GameState.players gameAstray) (GameState.currentPlayerIndex gameAstray) = None
   ∧ playerA ∈ GameState.players gameAstray
   ∧ playCard "a" (sampleCard "c1" CardType.number) None stateAstray = Throw
   ∧ playCard "a" (sampleCard "c1" CardType.number) None stateAstray ≠ Normal stateAstray)
  ∧ (js_index (GameState.players game3) (GameState.currentPlayerIndex game3) = Some playerA
     ∧ "b" ≠ Player.id playerA
     ∧ playCard "b" (sampleCard "c3" CardType.number) None state3 = Normal state3
     ∧ error state3 = None
     ∧ playCard_sends "b" (sampleCard "c3" CardType.number) None state3
       = [broadcastCardPlay "b" (sampleCard "c3" CardType.number) None]).
Proof.
  split.
  - split; [reflexivity|]. split; [by left|]. split; [reflexivity|]. discriminate.
  - split; [reflexivity|]. split; [discriminate|]. by repeat split.
Qed.

(** With nobody at [currentPlayerIndex] the updater either returns the
    state it was given or dies on [currentPlayer.id]: never a new state. *)
Lemma playCard_without_current_player state g playerId card chosenColor :
  gameState state = Some g →
  js_index (GameState.players g) (GameState.currentPlayerIndex g) = None →
  playCard playerId card chosenColor state = Normal state
  ∨ playCard playerId card chosenColor state = Throw.
Proof.
  intros Hg Hcur. unfold playCard.
  destruct (negb _ || _); [by left|].
  unfold playCard_update. rewrite Hg, Hcur.
  destruct (list_find _ _) as [[i player]|]; [by right | by left].
Qed.

End PlayCard.

Section PlayOutcome.

Implicit Types (state : RoomSystemState) (g : GameState) (player : Player).

(** The sample state is what a [GAME_STATE_UPDATE] snapshot leaves in a
    client that joined a room: the listener takes the snapshot as it comes. *)
Lemma state3_from_snapshot :
  applyGameEvent (GAME_STATE_UPDATE game3)
    (inRoom [sampleMember "a"; sampleMember "b"; sampleMember "c"])
  = state3.
Proof. reflexivity. Qed.

Lemma state3_in_game : in_game state3 game3.
Proof. split; reflexivity. Qed.

Lemma playerA_found : found_at "a" (GameState.players game3) 0 playerA.
Proof. split; [reflexivity|]. split; [reflexivity|]. intros j q _ Hj. lia. Qed.

(** In a roster with distinct ids the entry [find] returns for the id of
    the current player is the current player. *)
Lemma current_found (ps : list Player) (index : Z) currentPlayer :
  NoDup (Player.id <$> ps) →
  js_index ps index = Some currentPlayer →
  found_at (Player.id currentPlayer) ps (Z.to_nat index) currentPlayer.
Proof.
  intros Hnodup. unfold js_index. case bool_decide_reflect; [discriminate|].
  intros _ Hcur. split; [exact Hcur|]. split; [reflexivity|].
  intros j q Hq Hj Heq.
  assert (j = Z.to_nat index); [|lia].
  apply (NoDup_lookup (Player.id <$> ps) j _ (Player.id currentPlayer) Hnodup);
    rewrite list_lookup_fmap.
  - rewrite Hq. simpl. by rewrite Heq.
  - by rewrite Hcur.
Qed.

(** C8, as the code has it: in a session, in a roster with distinct ids, a
    play by the current player either empties that player's hand, and then
    the phase is finished, the winner is that player and the index stays;
    or it leaves cards, and then the index becomes [(currentPlayerIndex +
    1) mod players.length] whatever [direction] says, phase and winner as
    before. *)
Theorem play_finishes_or_advances state g card chosenColor currentPlayer :
  in_game state g →
  NoDup (Player.id <$> GameState.players g) →
  js_index (GameState.players g) (GameState.currentPlayerIndex g) = Some currentPlayer →
  ∃ g', playCard (Player.id currentPlayer) card chosenColor state
        = Normal (with_gameState state g')
    ∧ (filter (λ c, Card.id c ≠ Card.id card) (Player.cards currentPlayer) = [] →
         GameState.gamePhase g' = finished
         ∧ GameState.winner g' = Some (set_cards currentPlayer [])
         ∧ js_index (GameState.players g') (GameState.currentPlayerIndex g)
           = Some (set_cards currentPlayer [])
         ∧ GameState.currentPlayerIndex g' = GameState.currentPlayerIndex g)
    ∧ (filter (λ c, Card.id c ≠ Card.id card) (Player.cards currentPlayer) ≠ [] →
         GameState.gamePhase g' = GameState.gamePhase g
         ∧ GameState.winner g' = GameState.winner g
         ∧ GameState.currentPlayerIndex g'
           = (GameState.currentPlayerIndex g + 1)
               mod Z.of_nat (length (GameState.players g))).
Proof.
  intros Hin Hnodup Hcur.
  pose proof (current_found _ _ _ Hnodup Hcur) as Hfound.
  destruct (playCard_accepted state g (Player.id currentPlayer) card chosenColor _
              currentPlayer currentPlayer Hin Hfound Hcur eq_refl)
    as (g' & Hplay & Hplayers & _ & _ & _ & _ & _ & _ & Hwin & Hnext).
  exists g'. split; [exact Hplay|]. split; [|exact Hnext].
  intros Hempty. destruct (Hwin Hempty) as (Hphase & Hwinner & Hindex).
  repeat split; try assumption.
  rewrite Hplayers, Hempty. pose proof (js_index_Some _ _ _ Hcur) as Hrange.
  unfold js_index. rewrite bool_decide_false by lia.
  apply list_lookup_insert_eq. lia.
Qed.

Lemma play_finishes_or_advances_witness :
  ∃ g', playCard "a" (sampleCard "c1" CardType.number) None state3
        = Normal (with_gameState state3 g')
    ∧ (filter (λ c, Card.id c ≠ "c1") (Player.cards playerA) = [] →
         GameState.gamePhase g' = finished
         ∧ GameState.winner g' = Some (set_cards playerA [])
         ∧ js_index (GameState.players g') 0 = Some (set_cards playerA [])
         ∧ GameState.currentPlayerIndex g' = 0)
    ∧ (filter (λ c, Card.id c ≠ "c1") (Player.cards playerA) ≠ [] →
         GameState.gamePhase g' = playing
         ∧ GameState.winner g' = None
         ∧ GameState.currentPlayerIndex g' = (0 + 1) mod 3).
Proof.
  refine (play_finishes_or_advances state3 game3 (sampleCard "c1" CardType.number) None
            playerA state3_in_game _ eq_refl).
  apply (bool_decide_unpack _). by vm_compute.
Defined.

(** Why the ids have to be distinct: in the roster a, b, a with the turn at
    the second a, [find] returns the first a.  The card goes out of the
    first a's hand, the game finishes with the first a as winner, and the
    current player keeps both cards. *)
Lemma play_with_twin_ids :
  js_index (GameState.players gameTwins) (GameState.currentPlayerIndex gameTwins)
  = Some twinSecond
  ∧ ∃ g', playCard "a" (sampleCard "c1" CardType.number) None stateTwins
          = Normal (with_gameState stateTwins g')
      ∧ GameState.players g' = [set_cards twinFirst []; playerB; twinSecond]
      ∧ GameState.gamePhase g' = finished
      ∧ GameState.winner g' = Some (set_cards twinFirst [])
      ∧ GameState.currentPlayerIndex g' = 2.
Proof. split; [reflexivity|]. eexists. by repeat split. Qed.

(** C8, the claim as stated, fails: three players, direction
    counter-clockwise, index 0; player a plays one of two cards and the
    index becomes 1, while one position counter-clockwise from 0 is 2. *)
Lemma play_ignores_direction :
  GameState.direction game3 = counter_clockwise
  ∧ ∃ g', playCard "a" (sampleCard "c1" CardType.number) None state3
          = Normal (with_gameState state3 g')
      ∧ Player.cards <$> GameState.players g' !! 0%nat = Some [sampleCard "c2" CardType.skip]
      ∧ GameState.currentPlayerIndex g' = 1
      ∧ advance_in_direction (GameState.direction game3)
          (GameState.currentPlayerIndex game3) 3 = 2
      ∧ GameState.currentPlayerIndex g'
        ≠ advance_in_direction (GameState.direction game3)
            (GameState.currentPlayerIndex game3)
            (Z.of_nat (length (GameState.players game3))).
Proof.
  split; [reflexivity|]. eexists. split; [reflexivity|].
  split; [reflexivity|]. split; [reflexivity|]. split; [reflexivity|].
  discriminate.
Qed.

(** C3, as the code has it: in a session, in a roster with distinct ids, a
    play by the current player with a card whose id is not in that player's
    hand is accepted like any other: the roster and the draw pile stay as
    they are, the card goes on top of [discardPile] and becomes [topCard],
    [wildColor] follows the card's type, and the turn moves on (or, from an
    empty hand, the game finishes with that player as winner). *)
Theorem play_card_not_in_hand state g card chosenColor currentPlayer :
  in_game state g →
  NoDup (Player.id <$> GameState.players g) →
  js_index (GameState.players g) (GameState.currentPlayerIndex g) = Some currentPlayer →
  Forall (λ c, Card.id c ≠ Card.id card) (Player.cards currentPlayer) →
  ∃ g', playCard (Player.id currentPlayer) card chosenColor state
        = Normal (with_gameState state g')
    ∧ GameState.players g' = GameState.players g
    ∧ GameState.drawPile g' = GameState.drawPile g
    ∧ GameState.discardPile g' = GameState.discardPile g ++ [Some card]
    ∧ GameState.topCard g' = Some card
    ∧ GameState.wildColor g'
      = (if is_wild card then Some (default CardColor.red chosenColor) else None)
    ∧ (Player.cards currentPlayer ≠ [] →
         GameState.gamePhase g' = GameState.gamePhase g
         ∧ GameState.currentPlayerIndex g'
           = (GameState.currentPlayerIndex g + 1)
               mod Z.of_nat (length (GameState.players g)))
    ∧ (Player.cards currentPlayer = [] →
         GameState.gamePhase g' = finished
         ∧ GameState.winner g' = Some currentPlayer).
Proof.
  intros Hin Hnodup Hcur Habsent.
  pose proof (current_found _ _ _ Hnodup Hcur) as Hfound.
  assert (Hkeep : filter (λ c, Card.id c ≠ Card.id card) (Player.cards currentPlayer)
                  = Player.cards currentPlayer).
  { clear -Habsent. induction Habsent as [|c cs Hc _ IH]; [done|].
    by rewrite filter_cons, decide_True, IH. }
  destruct (playCard_accepted state g (Player.id currentPlayer) card chosenColor _
              currentPlayer currentPlayer Hin Hfound Hcur eq_refl)
    as (g' & Hplay & Hplayers & Htop & Hdiscard & Hdraw & _ & _ & Hwild & Hwin & Hnext).
  rewrite Hkeep in Hplayers, Hwin, Hnext.
  exists g'. split; [exact Hplay|]. split.
  { rewrite Hplayers, set_cards_same. apply list_insert_id. by destruct Hfound. }
  do 4 (split; [assumption|]). split.
  - intros Hsome. by destruct (Hnext Hsome) as (? & _ & ?).
  - intros Hnone. destruct (Hwin Hnone) as (? & Hwinner & _).
    split; [assumption|]. by rewrite Hwinner, <- Hnone, set_cards_same.
Qed.

Lemma play_card_not_in_hand_witness :
  ∃ g', playCard "a" (sampleCard "zz" CardType.wild) None state3
        = Normal (with_gameState state3 g')
    ∧ GameState.players g' = [playerA; playerB; playerC]
    ∧ GameState.drawPile g' = GameState.drawPile game3
    ∧ GameState.discardPile g'
      = [Some (sampleCard "c9" CardType.number); Some (sampleCard "zz" CardType.wild)]
    ∧ GameState.topCard g' = Some (sampleCard "zz" CardType.wild)
    ∧ GameState.wildColor g' = Some CardColor.red
    ∧ (Player.cards playerA ≠ [] →
         GameState.gamePhase g' = playing
         ∧ GameState.currentPlayerIndex g' = (0 + 1) mod 3)
    ∧ (Player.cards playerA = [] →
         GameState.gamePhase g' = finished ∧ GameState.winner g' = Some playerA).
Proof.
  refine (play_card_not_in_hand state3 game3 (sampleCard "zz" CardType.wild) None
            playerA state3_in_game _ eq_refl _).
  - apply (bool_decide_unpack _). by vm_compute.
  - repeat constructor; discriminate.
Defined.

(** C3, the claim as stated, fails: player a holds c1 and c2 and has the
    turn; playing a card with id zz is not turned down, the state changes,
    the card lands on [discardPile] and becomes [topCard]. *)
Lemma absent_card_is_played :
  js_index (GameState.players game3) (GameState.currentPlayerIndex game3) = Some playerA
  ∧ Card.id <$> Player.cards playerA = ["c1"; "c2"]
  ∧ playCard "a" (sampleCard "zz" CardType.wild) None state3 ≠ Normal state3
  ∧ ∃ g', playCard "a" (sampleCard "zz" CardType.wild) None state3
          = Normal (with_gameState state3 g')
      ∧ GameState.discardPile g'
        = [Some (sampleCard "c9" CardType.number); Some (sampleCard "zz" CardType.wild)]
      ∧ GameState.topCard g' = Some (sampleCard "zz" CardType.wild)
      ∧ GameState.topCard game3 = Some (sampleCard "c9" CardType.number).
Proof.
  split; [reflexivity|]. split; [reflexivity|]. split; [discriminate|].
  eexists. split; [reflexivity|]. repeat split.
Qed.

End PlayOutcome.

(** ** [drawCard] *)

Section DrawCard.

Implicit Types (state : RoomSystemState) (g : GameState) (player : Player).
Implicit Types (drawPile cards drawnCards : list Card).

Lemma pop_nil {A} : pop (@nil A) = None.
Proof. reflexivity. Qed.

Lemma pop_snoc {A} (a : list A) (x : A) : pop (a ++ [x]) = Some (a, x).
Proof.
  unfold pop. rewrite last_snoc, length_app. simpl.
  replace (pred (length a + 1)) with (length a) by lia.
  by rewrite take_app_length.
Qed.

Lemma snoc_cases {A} (a : list A) : a = [] ∨ ∃ a' x, a = a' ++ [x].
Proof. destruct a as [|x a'] using rev_ind; [by left | right; eauto]. Qed.

(** The loop pops [min count drawPile.length] cards: the pile keeps its
    front, the hand and [drawnCards] receive the popped tail, last card
    first. *)
Lemma draw_loop_pops (count : nat) drawPile cards drawnCards :
  draw_loop count drawPile cards drawnCards
  = (take (length drawPile - count) drawPile,
     cards ++ reverse (drop (length drawPile - count) drawPile),
     drawnCards ++ reverse (drop (length drawPile - count) drawPile)).
Proof.
  revert drawPile cards drawnCards.
  induction count as [|count IH]; intros drawPile cards drawnCards; simpl.
  - rewrite Nat.sub_0_r, firstn_all, drop_all. simpl. by rewrite !app_nil_r.
  - destruct (snoc_cases drawPile) as [->|(rest & card & ->)].
    + rewrite pop_nil, IH. reflexivity.
    + rewrite pop_snoc, IH, length_app. simpl.
      replace (length rest + 1 - S count)%nat with (length rest - count)%nat by lia.
      rewrite take_app_le by lia.
      rewrite drop_app_le by lia.
      rewrite reverse_app. simpl. by rewrite <- !app_assoc.
Qed.

(** The state and the array once the updater of a call that reaches a
    roster entry has run. *)
Lemma drawCard_found state g playerId i player (count : Z) :
  in_game state g →
  found_at playerId (GameState.players g) i player →
  drawCard_settled playerId count state
  = (with_gameState state
       (GameState.mk
          (<[i := set_cards player
                    (Player.cards player
                     ++ reverse (drop (length (GameState.drawPile g) - Z.to_nat count)
                                   (GameState.drawPile g)))]> (GameState.players g))
          (GameState.currentPlayerIndex g) (GameState.direction g) (GameState.topCard g)
          (take (length (GameState.drawPile g) - Z.to_nat count) (GameState.drawPile g))
          (GameState.discardPile g) (GameState.gamePhase g) (GameState.wildColor g)
          (GameState.winner g) (GameState.isBlockAllActive g)),
     reverse (drop (length (GameState.drawPile g) - Z.to_nat count) (GameState.drawPile g))).
Proof.
  intros Hin Hfound. unfold drawCard_settled. rewrite (guard_passes _ g) by exact Hin.
  unfold drawCard_update.
  by rewrite (proj1 Hin), (find_found _ _ _ _ Hfound), draw_loop_pops.
Qed.




(** C10: [drawCard] with a [playerId] no roster entry carries gives back
    the state it was given and an empty [drawnCards], which stays empty. *)
Theorem drawCard_unknown_player state playerId (count : Z) :
  (∀ g, gameState state = Some g →
     Forall (λ p, Player.id p ≠ playerId) (GameState.players g)) →
  drawCard playerId count state = (state, [])
  ∧ drawnCards_filled playerId count state = [].
Proof.
  intros Habsent. unfold drawCard, drawnCards_filled, drawCard_settled.
  destruct (negb _ || _); [by split|].
  unfold drawCard_update.
  destruct (gameState state) as [g|]; [|by split].
  by rewrite (find_absent _ _ (Habsent g eq_refl)).
Qed.

Lemma drawCard_unknown_player_witness :
  Forall (λ p, Player.id p ≠ "zz") (GameState.players game3)
  ∧ drawCard "zz" 2 state3 = (state3, [])
  ∧ drawnCards_filled "zz" 2 state3 = [].
Proof.
  assert (Habsent : Forall (λ p, Player.id p ≠ "zz") (GameState.players game3)).
  { repeat constructor; discriminate. }
  split; [exact Habsent|].
  apply drawCard_unknown_player. intros g Hg. injection Hg as <-. exact Habsent.
Defined.

(** Without a game, or without a local player id, the callback returns
    before it reaches the updater. *)
Lemma drawCard_outside_game state playerId (count : Z) :
  gameState state = None ∨ falsy_string (currentPlayerId state) = true →
  drawCard playerId count state = (state, [])
  ∧ drawnCards_filled playerId count state = [].
Proof.
  intros [Hg|Hid]; unfold drawCard, drawnCards_filled, drawCard_settled.
  - by rewrite Hg.
  - rewrite Hid. by rewrite orb_true_r.
Qed.

End DrawCard.

(** ** [initializeGameState] *)

Section Deal.

Variable deck : list Card.

Implicit Types (players : list Player) (cardIndex : nat).

(** A pass of the deal moves cards from the undealt part of the deck into
    the hands and nowhere else. *)
Lemma deal_round_moves players : ∀ cardIndex players' k,
  deal_round deck cardIndex players = (players', k) →
  concat (Player.cards <$> players') ++ drop k deck
  ≡ₚ concat (Player.cards <$> players) ++ drop cardIndex deck.
Proof.
  induction players as [|player rest IH]; intros cardIndex players' k Hdeal;
    simpl in Hdeal.
  - by injection Hdeal as <- <-.
  - destruct (deck !! cardIndex) as [c|] eqn:Hc.
    + destruct (deal_round deck (S cardIndex) rest) as [rest' k1] eqn:Hrest.
      injection Hdeal as <- <-. simpl.
      rewrite (drop_S deck c cardIndex Hc), <- !app_assoc.
      apply Permutation_app_head. simpl.
      rewrite (IH _ _ _ Hrest). apply Permutation_middle.
    + destruct (deal_round deck cardIndex rest) as [rest' k1] eqn:Hrest.
      injection Hdeal as <- <-. simpl.
      rewrite <- !app_assoc. apply Permutation_app_head. exact (IH _ _ _ Hrest).
Qed.

(** A pass gives one card to each player until the deck runs out. *)
Lemma deal_round_index players : ∀ cardIndex players' k,
  (cardIndex ≤ length deck)%nat →
  deal_round deck cardIndex players = (players', k) →
  k = Nat.min (cardIndex + length players) (length deck)
  ∧ length players' = length players.
Proof.
  induction players as [|player rest IH]; intros cardIndex players' k Hle Hdeal;
    simpl in Hdeal.
  - injection Hdeal as <- <-. simpl. split; [lia|reflexivity].
  - destruct (deck !! cardIndex) as [c|] eqn:Hc.
    + destruct (deal_round deck (S cardIndex) rest) as [rest' k1] eqn:Hrest.
      injection Hdeal as <- <-. apply lookup_lt_Some in Hc.
      destruct (IH _ _ _ Hc Hrest) as [-> Hlen]. cbn [length]. split; lia.
    + destruct (deal_round deck cardIndex rest) as [rest' k1] eqn:Hrest.
      injection Hdeal as <- <-. apply lookup_ge_None in Hc.
      destruct (IH _ _ _ Hle Hrest) as [-> Hlen]. cbn [length]. split; lia.
Qed.

Lemma deal_moves rounds : ∀ players cardIndex players' k,
  deal rounds deck cardIndex players = (players', k) →
  concat (Player.cards <$> players') ++ drop k deck
  ≡ₚ concat (Player.cards <$> players) ++ drop cardIndex deck.
Proof.
  induction rounds as [|rounds IH]; intros players cardIndex players' k Hdeal;
    simpl in Hdeal.
  - by injection Hdeal as <- <-.
  - destruct (deal_round deck cardIndex players) as [players1 k1] eqn:Hround.
    rewrite (IH _ _ _ _ Hdeal). exact (deal_round_moves _ _ _ _ Hround).
Qed.

Lemma deal_index rounds : ∀ players cardIndex players' k,
  (cardIndex ≤ length deck)%nat →
  deal rounds deck cardIndex players = (players', k) →
  k = Nat.min (cardIndex + rounds * length players) (length deck)
  ∧ length players' = length players.
Proof.
  induction rounds as [|rounds IH]; intros players cardIndex players' k Hle Hdeal;
    simpl in Hdeal.
  - injection Hdeal as <- <-. simpl. split; [lia|reflexivity].
  - destruct (deal_round deck cardIndex players) as [players1 k1] eqn:Hround.
    destruct (deal_round_index _ _ _ _ Hle Hround) as [-> Hlen1].
    destruct (IH _ _ _ _ (Nat.le_min_r _ _) Hdeal) as [-> Hlen].
    rewrite Hlen1 in *. split; [|exact Hlen]. simpl. lia.
Qed.

(** [deck.length] iterations are enough for the scan: where it stops, the
    loop condition is false (a number card, or the end of the deck). *)
Lemma scan_top_stops fuel : ∀ start,
  (length deck ≤ start + fuel)%nat →
  match deck !! scan_top fuel deck start with
  | Some c => is_number c = true
  | None => True
  end.
Proof.
  induction fuel as [|fuel IH]; intros start Hfuel; simpl.
  - by rewrite lookup_ge_None_2 by lia.
  - destruct (deck !! start) as [c0|] eqn:Hstart.
    + destruct (is_number c0) eqn:Hc0; [by rewrite Hstart|]. apply IH. lia.
    + by rewrite Hstart.
Qed.

(** The scan stops within its fuel at the first number card, when there is
    one at or after the place it starts from. *)
Lemma scan_top_finds fuel : ∀ start j c,
  (start ≤ j)%nat → (j < start + fuel)%nat →
  deck !! j = Some c → is_number c = true →
  ∃ c', (start ≤ scan_top fuel deck start)%nat
    ∧ deck !! scan_top fuel deck start = Some c' ∧ is_number c' = true.
Proof.
  induction fuel as [|fuel IH]; intros start j c Hle Hlt Hj Hnum; [lia|].
  simpl. destruct (deck !! start) as [c0|] eqn:Hstart.
  - destruct (is_number c0) eqn:Hc0.
    + exists c0. by rewrite Hstart.
    + assert (start ≠ j) by (intros ->; congruence).
      destruct (IH (S start) j c) as (c' & ? & ? & ?); [lia|lia|done|done|].
      exists c'. split; [lia|done].
  - apply lookup_ge_None in Hstart. apply lookup_lt_Some in Hj. lia.
Qed.

(** With no number card from [start] on, the scan runs to [deck.length]. *)
Lemma scan_top_exhausts fuel : ∀ start,
  (start ≤ length deck)%nat → (length deck ≤ start + fuel)%nat →
  (∀ j c, (start ≤ j)%nat → deck !! j = Some c → is_number c = false) →
  scan_top fuel deck start = length deck.
Proof.
  induction fuel as [|fuel IH]; intros start Hle Hfuel Hnone; simpl; [lia|].
  destruct (deck !! start) as [c0|] eqn:Hstart.
  - rewrite (Hnone start c0 (Nat.le_refl _) Hstart).
    apply lookup_lt_Some in Hstart.
    apply IH; [lia|lia|]. intros j c Hj. apply Hnone. lia.
  - apply lookup_ge_None in Hstart. lia.
Qed.

End Deal.

Section Initialize.

Implicit Types (deck : list Card) (room : Room).

Lemma filter_index_all {A} (f : A → nat → bool) (a : list A) : ∀ j,
  (∀ x i, (j ≤ i)%nat → f x i = true) → filter_index f j a = a.
Proof.
  induction a as [|x rest IH]; intros j Hall; simpl; [done|].
  rewrite (Hall x j (Nat.le_refl _)). f_equal.
  apply IH. intros y i Hi. apply Hall. lia.
Qed.

Lemma filter_index_none {A} (f : A → nat → bool) (a : list A) : ∀ j,
  (∀ x i, (j ≤ i < j + length a)%nat → f x i = false) → filter_index f j a = [].
Proof.
  induction a as [|x rest IH]; intros j Hnone; simpl; [done|].
  rewrite (Hnone x j) by (simpl; lia).
  apply IH. intros y i Hi. apply Hnone. simpl. lia.
Qed.

(** The callback of [deck.filter] keeps the undealt cards but the one at
    [topCardIndex]: with that card put back they are the undealt part. *)
Lemma remaining_with_top (cardIndex topCardIndex : nat) (a : list Card) : ∀ j c,
  (cardIndex ≤ topCardIndex)%nat → (j ≤ topCardIndex)%nat →
  a !! (topCardIndex - j)%nat = Some c →
  filter_index
    (λ _ index, bool_decide (index ≠ topCardIndex) && bool_decide (cardIndex ≤ index)%nat)
    j a ++ [c]
  ≡ₚ drop (cardIndex - j) a.
Proof.
  induction a as [|x rest IH]; intros j c Hle Hj Hc; [done|]. simpl.
  destruct (decide (j = topCardIndex)) as [->|Hne].
  - rewrite Nat.sub_diag in Hc. injection Hc as ->.
    rewrite bool_decide_false by (intros Hne; by apply Hne). simpl.
    replace (cardIndex - topCardIndex)%nat with 0%nat by lia. simpl.
    rewrite filter_index_all; [symmetry; apply Permutation_cons_append|].
    intros _ i Hi. rewrite !bool_decide_true by lia. reflexivity.
  - rewrite bool_decide_true by exact Hne. simpl.
    replace (topCardIndex - j)%nat with (S (topCardIndex - S j)) in Hc by lia.
    simpl in Hc. specialize (IH (S j) c Hle ltac:(lia) Hc).
    destruct (decide (cardIndex ≤ j)%nat) as [Hin|Hout].
    + rewrite bool_decide_true by exact Hin. simpl.
      replace (cardIndex - j)%nat with 0%nat by lia.
      replace (cardIndex - S j)%nat with 0%nat in IH by lia.
      simpl in *. by rewrite IH.
    + rewrite bool_decide_false by exact Hout.
      replace (cardIndex - j)%nat with (S (cardIndex - S j)) by lia.
      exact IH.
Qed.

(** When [topCardIndex] is past the end the callback keeps every undealt
    card. *)
Lemma remaining_without_top (cardIndex n : nat) (a : list Card) : ∀ j,
  (j + length a ≤ n)%nat →
  filter_index
    (λ _ index, bool_decide (index ≠ n) && bool_decide (cardIndex ≤ index)%nat) j a
  = drop (cardIndex - j) a.
Proof.
  induction a as [|x rest IH]; intros j Hn; [by rewrite drop_nil|].
  cbn [length] in Hn. cbn [filter_index].
  rewrite bool_decide_true by lia. rewrite andb_true_l.
  destruct (decide (cardIndex ≤ j)%nat) as [Hin|Hout].
  - rewrite bool_decide_true by exact Hin.
    replace (cardIndex - j)%nat with 0%nat by lia.
    rewrite drop_0. f_equal. rewrite (IH (S j)) by lia.
    replace (cardIndex - S j)%nat with 0%nat by lia. by rewrite drop_0.
  - rewrite bool_decide_false by exact Hout.
    replace (cardIndex - j)%nat with (S (cardIndex - S j)) by lia.
    cbn [drop]. apply IH. lia.
Qed.

Lemma fresh_hands_empty (ps : list RoomPlayer) :
  concat (Player.cards <$> (toPlayer <$> ps)) = [].
Proof. induction ps as [|p ps IH]; [done|]. simpl. exact IH. Qed.

(** The deal from a fresh roster: [cardIndex] ends at [7 * players.length] or
    at the end of the deck, and hands plus undealt cards are the deck. *)
Lemma deal_from_fresh deck room players cardIndex :
  deal 7 deck 0 (toPlayer <$> Room.players room) = (players, cardIndex) →
  cardIndex = Nat.min (7 * length (Room.players room)) (length deck)
  ∧ concat (Player.cards <$> players) ++ drop cardIndex deck ≡ₚ deck.
Proof.
  intros Hdeal. split.
  - destruct (deal_index deck 7 _ 0%nat _ _ (Nat.le_0_l _) Hdeal) as [-> _].
    by rewrite length_fmap.
  - rewrite (deal_moves deck 7 _ _ _ _ Hdeal). by rewrite fresh_hands_empty.
Qed.

(** X1: when a number card is left after the deal, the hands, the draw pile
    and the discard pile hold the cards of the deck, each once. *)
Theorem initialize_conserves deck room j c :
  (7 * length (Room.players room) ≤ j)%nat →
  deck !! j = Some c → Card.type c = CardType.number →
  all_cards (initializeGameState deck room) ≡ₚ Some <$> deck.
Proof.
  intros Hj Hc Hnum.
  unfold initializeGameState.
  destruct (deal 7 deck 0 (toPlayer <$> Room.players room)) as [players cardIndex] eqn:Hdeal.
  destruct (deal_from_fresh _ _ _ _ Hdeal) as [Hindex Hdealt].
  pose proof (lookup_lt_Some _ _ _ Hc) as Hjlt.
  destruct (scan_top_finds deck (length deck) cardIndex j c) as (top & Hle & Htop & _);
    [lia | lia | exact Hc | by unfold is_number; rewrite Hnum |].
  unfold all_cards, hands. simpl. rewrite Htop.
  change [Some top] with (Some <$> [top]).
  rewrite <- !fmap_app. apply fmap_Permutation.
  rewrite <- Hdealt at 2. apply Permutation_app_head.
  pose proof (remaining_with_top cardIndex _ deck 0 top Hle (Nat.le_0_l _)) as Hrest.
  rewrite !Nat.sub_0_r in Hrest. exact (Hrest Htop).
Qed.

Lemma initialize_conserves_witness :
  all_cards (initializeGameState deck9 (sampleRoom [sampleMember "a"]))
  ≡ₚ Some <$> deck9.
Proof.
  apply (initialize_conserves deck9 (sampleRoom [sampleMember "a"]) 8
           (sampleCard "c9" CardType.number)); [simpl; lia | reflexivity | reflexivity].
Defined.

(** When cards are left after the deal and none of them is a number card,
    [topCard] falls back to [deck[cardIndex]], the filter removes nothing
    (its [topCardIndex] is [deck.length]), and the card sits both in
    [drawPile] and in [discardPile]: one card slot more than the deck has. *)
Lemma initialize_fallback_duplicates deck room c :
  deck !! (7 * length (Room.players room))%nat = Some c →
  (∀ j c', (7 * length (Room.players room) ≤ j)%nat →
     deck !! j = Some c' → is_number c' = false) →
  GameState.topCard (initializeGameState deck room) = Some c
  ∧ GameState.discardPile (initializeGameState deck room) = [Some c]
  ∧ GameState.drawPile (initializeGameState deck room)
    = drop (7 * length (Room.players room)) deck
  ∧ c ∈ GameState.drawPile (initializeGameState deck room)
  ∧ length (all_cards (initializeGameState deck room)) = S (length deck).
Proof.
  intros Hc Hnone.
  pose proof (lookup_lt_Some _ _ _ Hc) as Hlt.
  unfold all_cards, hands, initializeGameState.
  destruct (deal 7 deck 0 (toPlayer <$> Room.players room)) as [players cardIndex] eqn:Hdeal.
  destruct (deal_from_fresh _ _ _ _ Hdeal) as [Hindex Hdealt].
  rewrite Nat.min_l in Hindex by lia. subst cardIndex.
  rewrite (scan_top_exhausts deck (length deck)) by (try lia; exact Hnone).
  rewrite (lookup_ge_None_2 deck (length deck)) by lia. rewrite Hc.
  rewrite (remaining_without_top _ (length deck) deck 0) by (simpl; lia).
  rewrite Nat.sub_0_r.
  cbn [GameState.topCard GameState.discardPile GameState.drawPile GameState.players].
  split; [reflexivity|]. split; [reflexivity|]. split; [reflexivity|]. split.
  - rewrite (drop_S deck c _ Hc). by left.
  - apply Permutation_length in Hdealt.
    rewrite !length_app, !length_fmap. rewrite length_app in Hdealt.
    cbn [length]. lia.
Qed.

(** X5: when the deal uses up the deck, nothing is left to turn over: [topCard]
    is [undefined], [discardPile] holds that [undefined], [drawPile] is empty
    and the hands hold the deck. *)
Lemma initialize_exhausted deck room :
  (length deck ≤ 7 * length (Room.players room))%nat →
  GameState.topCard (initializeGameState deck room) = None
  ∧ GameState.discardPile (initializeGameState deck room) = [None]
  ∧ GameState.drawPile (initializeGameState deck room) = []
  ∧ hands (initializeGameState deck room) ≡ₚ deck.
Proof.
  intros Hshort. unfold hands, initializeGameState.
  destruct (deal 7 deck 0 (toPlayer <$> Room.players room)) as [players cardIndex] eqn:Hdeal.
  destruct (deal_from_fresh _ _ _ _ Hdeal) as [Hindex Hdealt].
  rewrite Nat.min_r in Hindex by lia. subst cardIndex.
  rewrite (scan_top_exhausts deck (length deck)); [|lia|lia|].
  - rewrite (lookup_ge_None_2 deck (length deck)) by lia.
    cbn [GameState.topCard GameState.discardPile GameState.drawPile GameState.players].
    split; [reflexivity|]. split; [reflexivity|]. split.
    + apply filter_index_none. intros x i Hi.
      rewrite (bool_decide_false (length deck ≤ i)%nat) by lia. apply andb_false_r.
    + by rewrite drop_all, app_nil_r in Hdealt.
  - intros j c Hj Hc. apply lookup_lt_Some in Hc. lia.
Qed.

(** C1 fails on this input: eight cards with distinct ids, the last a skip,
    dealt to a room of one.  The player gets seven, the scan finds no number
    card, the skip becomes [topCard] and stays in [drawPile] as well: nine
    card slots for a deck of eight, the id c8 twice. *)
Theorem initialize_duplicates_last_card :
  NoDup (Card.id <$> deck8)
  ∧ length deck8 = 8%nat
  ∧ GameState.drawPile (initializeGameState deck8 (sampleRoom [sampleMember "a"]))
    = [sampleCard "c8" CardType.skip]
  ∧ GameState.discardPile (initializeGameState deck8 (sampleRoom [sampleMember "a"]))
    = [Some (sampleCard "c8" CardType.skip)]
  ∧ length (all_cards (initializeGameState deck8 (sampleRoom [sampleMember "a"]))) = 9%nat
  ∧ ¬ all_cards (initializeGameState deck8 (sampleRoom [sampleMember "a"]))
      ≡ₚ Some <$> deck8.
Proof.
  split; [apply (bool_decide_unpack _); by vm_compute|]. split; [reflexivity|].
  split; [reflexivity|]. split; [reflexivity|]. split; [reflexivity|].
  intros Hperm. apply Permutation_length in Hperm. discriminate Hperm.
Qed.

End Initialize.

(** * Further properties *)

(** ** The deal and the first card *)

Section DealOrder.

Variable deck : list Card.

Implicit Types (players : list Player) (cardIndex : nat).

(** A pass over a deck with a card for everybody: the player at [i] gets
    [deck[cardIndex + i]]. *)
Lemma deal_round_each players : ∀ cardIndex players' k,
  (cardIndex + length players ≤ length deck)%nat →
  deal_round deck cardIndex players = (players', k) →
  k = (cardIndex + length players)%nat
  ∧ length players' = length players
  ∧ ∀ i p, players !! i = Some p →
      ∃ c, deck !! (cardIndex + i)%nat = Some c
        ∧ players' !! i = Some (set_cards p (Player.cards p ++ [c])).
Proof.
  induction players as [|player rest IH]; intros cardIndex players' k Hfit Hdeal;
    cbn [length] in Hfit; simpl in Hdeal.
  - injection Hdeal as <- <-. cbn [length]. split; [lia|]. split; [done|].
    intros i p Hp. by rewrite lookup_nil in Hp.
  - destruct (deck !! cardIndex) as [c|] eqn:Hc.
    + destruct (deal_round deck (S cardIndex) rest) as [rest' k1] eqn:Hrest.
      injection Hdeal as <- <-.
      destruct (IH (S cardIndex) _ _ ltac:(lia) Hrest) as (-> & Hlen & Hrec).
      cbn [length]. split; [lia|]. split; [lia|].
      intros [|i] p Hp; simpl in Hp.
      * injection Hp as <-. exists c. by rewrite Nat.add_0_r.
      * destruct (Hrec i p Hp) as (c' & Hc' & Hp'). exists c'.
        replace (cardIndex + S i)%nat with (S cardIndex + i)%nat by lia. done.
    + apply lookup_ge_None in Hc. lia.
Qed.

(** The rows the deal reads for the player at [i]: one card per pass. *)
Lemma rows_shift (f : nat → option Card) (rounds : nat) :
  f <$> seq 0 (S rounds) = f 0%nat :: ((λ j, f (S j)) <$> seq 0 rounds).
Proof.
  cbn [seq fmap list_fmap]. f_equal.
  rewrite <- fmap_S_seq, <- list_fmap_compose. done.
Qed.

Lemma deal_each rounds : ∀ players cardIndex players' k,
  (cardIndex + rounds * length players ≤ length deck)%nat →
  deal rounds deck cardIndex players = (players', k) →
  k = (cardIndex + rounds * length players)%nat
  ∧ length players' = length players
  ∧ ∀ i p, players !! i = Some p →
      ∃ p', players' !! i = Some p'
        ∧ profile p' = profile p
        ∧ Some <$> Player.cards p'
          = (Some <$> Player.cards p)
            ++ ((λ j, deck !! (cardIndex + j * length players + i)%nat) <$> seq 0 rounds).
Proof.
  induction rounds as [|rounds IH]; intros players cardIndex players' k Hfit Hdeal;
    simpl in Hdeal.
  - injection Hdeal as <- <-. split; [lia|]. split; [done|].
    intros i p Hp. exists p. cbn [seq fmap list_fmap]. by rewrite app_nil_r.
  - destruct (deal_round deck cardIndex players) as [players1 k1] eqn:Hround.
    destruct (deal_round_each players cardIndex _ _ ltac:(lia) Hround) as (-> & Hlen1 & Hrow).
    destruct (IH players1 (cardIndex + length players)%nat _ _
                ltac:(rewrite Hlen1; lia) Hdeal) as (-> & Hlen & Hrec).
    rewrite Hlen1 in *. split; [lia|]. split; [done|].
    intros i p Hp. destruct (Hrow i p Hp) as (c & Hc & Hp1).
    destruct (Hrec i _ Hp1) as (p' & Hp' & Hprofile & Hcards).
    exists p'. split; [exact Hp'|]. split; [exact Hprofile|].
    rewrite Hcards, rows_shift. cbn [set_cards Player.cards].
    rewrite fmap_app, <- app_assoc. f_equal. cbn [fmap list_fmap app].
    rewrite Nat.add_0_r, Hc. f_equal.
    apply list_fmap_ext. intros _ j _. f_equal. lia.
Qed.

End DealOrder.

Section FirstCard.

Implicit Types (deck : list Card) (room : Room).

Lemma deal_round_profiles deck (players : list Player) : ∀ cardIndex players' k,
  deal_round deck cardIndex players = (players', k) →
  profile <$> players' = profile <$> players.
Proof.
  induction players as [|player rest IH]; intros cardIndex players' k Hdeal;
    simpl in Hdeal.
  - by injection Hdeal as <- <-.
  - destruct (deck !! cardIndex) as [c|].
    + destruct (deal_round deck (S cardIndex) rest) as [rest' k1] eqn:Hrest.
      injection Hdeal as <- <-. rewrite !fmap_cons. f_equal. exact (IH _ _ _ Hrest).
    + destruct (deal_round deck cardIndex rest) as [rest' k1] eqn:Hrest.
      injection Hdeal as <- <-. rewrite !fmap_cons. f_equal. exact (IH _ _ _ Hrest).
Qed.

Lemma deal_profiles deck rounds : ∀ (players : list Player) cardIndex players' k,
  deal rounds deck cardIndex players = (players', k) →
  profile <$> players' = profile <$> players.
Proof.
  induction rounds as [|rounds IH]; intros players cardIndex players' k Hdeal;
    simpl in Hdeal.
  - by injection Hdeal as <- <-.
  - destruct (deal_round deck cardIndex players) as [players1 k1] eqn:Hround.
    rewrite (IH _ _ _ _ Hdeal). exact (deal_round_profiles _ _ _ _ _ Hround).
Qed.

(** The scan stops at the first number card at or after its start. *)
Lemma scan_top_first deck fuel : ∀ start j c,
  (start ≤ j)%nat → (j < start + fuel)%nat →
  deck !! j = Some c → is_number c = true →
  (start ≤ scan_top fuel deck start ≤ j)%nat
  ∧ (∃ top, deck !! scan_top fuel deck start = Some top ∧ is_number top = true)
  ∧ ∀ i c', (start ≤ i < scan_top fuel deck start)%nat →
      deck !! i = Some c' → is_number c' = false.
Proof.
  induction fuel as [|fuel IH]; intros start j c Hle Hlt Hj Hnum; [lia|].
  simpl. destruct (deck !! start) as [c0|] eqn:Hstart.
  - destruct (is_number c0) eqn:Hc0.
    + split; [lia|]. split; [by exists c0|]. intros i c' Hi. lia.
    + assert (start ≠ j) by (intros ->; congruence).
      destruct (IH (S start) j c) as (Hrange & Htop & Hbefore); [lia|lia|done|done|].
      split; [lia|]. split; [exact Htop|].
      intros i c' Hi Hc'. destruct (decide (i = start)) as [->|Hne].
      * congruence.
      * apply (Hbefore i c'); [lia|exact Hc'].
  - apply lookup_ge_None in Hstart. apply lookup_lt_Some in Hj. lia.
Qed.

(** What the callback of [deck.filter] keeps, in deck order: the cards from
    [cardIndex] up to [topCardIndex], then the cards past it. *)
Lemma remaining_in_order (cardIndex topCardIndex : nat) (a : list Card) : ∀ j,
  (cardIndex ≤ topCardIndex)%nat →
  filter_index
    (λ _ index, bool_decide (index ≠ topCardIndex) && bool_decide (cardIndex ≤ index)%nat)
    j a
  = drop (cardIndex - j) (take (topCardIndex - j) a) ++ drop (S topCardIndex - j) a.
Proof.
  induction a as [|x rest IH]; intros j Hle.
  - by rewrite take_nil, !drop_nil.
  - cbn [filter_index]. rewrite (IH (S j) Hle).
    destruct (decide (j = topCardIndex)) as [->|Hne].
    + rewrite bool_decide_false by (intros Hne; by apply Hne). rewrite andb_false_l.
      rewrite !Nat.sub_diag.
      replace (topCardIndex - S topCardIndex)%nat with 0%nat by lia.
      replace (S topCardIndex - topCardIndex)%nat with 1%nat by lia.
      by rewrite !take_0, !drop_nil.
    + rewrite bool_decide_true by exact Hne. rewrite andb_true_l.
      destruct (decide (cardIndex ≤ j)%nat) as [Hin|Hout].
      * rewrite bool_decide_true by exact Hin.
        replace (cardIndex - j)%nat with 0%nat by lia.
        replace (cardIndex - S j)%nat with 0%nat by lia.
        rewrite !drop_0.
        destruct (decide (j < topCardIndex)%nat) as [Hlt|Hge].
        -- replace (topCardIndex - j)%nat with (S (topCardIndex - S j)) by lia.
           replace (S topCardIndex - j)%nat with (S (S topCardIndex - S j)) by lia.
           done.
        -- replace (topCardIndex - j)%nat with 0%nat by lia.
           replace (topCardIndex - S j)%nat with 0%nat by lia.
           replace (S topCardIndex - j)%nat with 0%nat by lia.
           replace (S topCardIndex - S j)%nat with 0%nat by lia.
           by rewrite !take_0, !drop_0.
      * rewrite bool_decide_false by exact Hout.
        replace (cardIndex - j)%nat with (S (cardIndex - S j)) by lia.
        replace (topCardIndex - j)%nat with (S (topCardIndex - S j)) by lia.
        replace (S topCardIndex - j)%nat with (S (S topCardIndex - S j)) by lia.
        done.
Qed.

Lemma initialize_profiles deck room :
  profile <$> GameState.players (initializeGameState deck room)
  = profile <$> (toPlayer <$> Room.players room).
Proof.
  unfold initializeGameState.
  destruct (deal 7 deck 0 (toPlayer <$> Room.players room)) as [players cardIndex] eqn:Hdeal.
  cbn [GameState.players]. exact (deal_profiles _ _ _ _ _ _ Hdeal).
Qed.

(** X4: the roster of the new game is the room's roster, in order: same ids
    and names, everybody human, nobody has called UNO; this for any deck. *)
Theorem initialize_roster deck room :
  profile <$> GameState.players (initializeGameState deck room)
  = (λ rp, (RoomPlayer.id rp, RoomPlayer.name rp, true, false)) <$> Room.players room.
Proof. rewrite initialize_profiles, <- list_fmap_compose. done. Qed.

(** X3: with at least seven cards per player in the deck, the player at
    position [i] of a roster of [n] holds exactly [deck[i]], [deck[n + i]],
    ..., [deck[6n + i]], in that order: seven cards, dealt one per pass. *)
Theorem initialize_hands_round_robin deck room i member :
  (7 * length (Room.players room) ≤ length deck)%nat →
  Room.players room !! i = Some member →
  ∃ p, GameState.players (initializeGameState deck room) !! i = Some p
    ∧ Player.id p = RoomPlayer.id member
    ∧ Some <$> Player.cards p
      = (λ j, deck !! (j * length (Room.players room) + i)%nat) <$> seq 0 7
    ∧ length (Player.cards p) = 7%nat.
Proof.
  intros Hfit Hmember. unfold initializeGameState.
  destruct (deal 7 deck 0 (toPlayer <$> Room.players room)) as [players cardIndex] eqn:Hdeal.
  cbn [GameState.players].
  assert (Hroom : (0 + 7 * length (toPlayer <$> Room.players room) ≤ length deck)%nat)
    by (rewrite length_fmap; lia).
  destruct (deal_each deck 7 _ 0%nat _ _ Hroom Hdeal) as (_ & _ & Heach).
  destruct (Heach i (toPlayer member)) as (p & Hp & Hprofile & Hcards).
  { by rewrite list_lookup_fmap, Hmember. }
  rewrite length_fmap in Hcards. cbn [toPlayer Player.cards fmap list_fmap app] in Hcards.
  exists p. split; [exact Hp|]. split; [by injection Hprofile|].
  split; [exact Hcards|].
  apply (f_equal length) in Hcards. by rewrite !length_fmap in Hcards.
Qed.

Lemma initialize_hands_round_robin_witness :
  ∃ p, GameState.players (initializeGameState deck16 roomAB) !! 1%nat = Some p
    ∧ Player.id p = "b"
    ∧ Some <$> Player.cards p = (λ j, deck16 !! (j * 2 + 1)%nat) <$> seq 0 7
    ∧ length (Player.cards p) = 7%nat.
Proof.
  refine (initialize_hands_round_robin deck16 roomAB 1 (sampleMember "b") _ eq_refl).
  vm_compute. lia.
Defined.

(** X2: when a number card is left after the deal, [topCard] is the first
    number card at or after position [7 * players.length]; [discardPile] is
    that card alone; [drawPile] is the rest of the undealt cards in deck
    order, [deck.length - 7 * players.length - 1] of them; the game starts
    at index 0, clockwise, in phase playing. *)
Theorem initialize_top_card deck room j c :
  (7 * length (Room.players room) ≤ j)%nat →
  deck !! j = Some c → Card.type c = CardType.number →
  ∃ t top,
    (7 * length (Room.players room) ≤ t ≤ j)%nat
    ∧ deck !! t = Some top ∧ Card.type top = CardType.number
    ∧ (∀ i c', (7 * length (Room.players room) ≤ i < t)%nat →
         deck !! i = Some c' → Card.type c' ≠ CardType.number)
    ∧ GameState.topCard (initializeGameState deck room) = Some top
    ∧ GameState.discardPile (initializeGameState deck room) = [Some top]
    ∧ GameState.drawPile (initializeGameState deck room)
      = drop (7 * length (Room.players room)) (take t deck) ++ drop (S t) deck
    ∧ length (GameState.drawPile (initializeGameState deck room))
      = (length deck - 7 * length (Room.players room) - 1)%nat
    ∧ GameState.currentPlayerIndex (initializeGameState deck room) = 0
    ∧ GameState.direction (initializeGameState deck room) = clockwise
    ∧ GameState.gamePhase (initializeGameState deck room) = playing.
Proof.
  intros Hj Hc Hnum.
  pose proof (lookup_lt_Some _ _ _ Hc) as Hjlt.
  unfold initializeGameState.
  destruct (deal 7 deck 0 (toPlayer <$> Room.players room)) as [players cardIndex] eqn:Hdeal.
  destruct (deal_from_fresh _ _ _ _ Hdeal) as [Hindex _].
  rewrite Nat.min_l in Hindex by lia. subst cardIndex.
  destruct (scan_top_first deck (length deck) (7 * length (Room.players room)) j c)
    as (Hrange & (top & Htop & Htopnum) & Hbefore);
    [lia | lia | exact Hc | by unfold is_number; rewrite Hnum |].
  set (t := scan_top (length deck) deck (7 * length (Room.players room))) in *.
  pose proof (lookup_lt_Some _ _ _ Htop) as Htlt.
  exists t, top. rewrite Htop.
  cbn [GameState.topCard GameState.discardPile GameState.drawPile
       GameState.currentPlayerIndex GameState.direction GameState.gamePhase].
  rewrite remaining_in_order by lia. rewrite !Nat.sub_0_r.
  split; [lia|]. split; [reflexivity|].
  split; [unfold is_number in Htopnum; by destruct (Card.type top)|].
  split.
  { intros i c' Hi Hc' Hn. specialize (Hbefore i c' Hi Hc').
    unfold is_number in Hbefore. by rewrite Hn in Hbefore. }
  split; [done|]. split; [done|]. split; [done|].
  split; [|done].
  rewrite length_app, !length_drop, length_take. lia.
Qed.

Lemma initialize_top_card_witness :
  ∃ t top,
    (7 * 2 ≤ t ≤ 15)%nat
    ∧ deck16 !! t = Some top ∧ Card.type top = CardType.number
    ∧ (∀ i c', (7 * 2 ≤ i < t)%nat → deck16 !! i = Some c' →
         Card.type c' ≠ CardType.number)
    ∧ GameState.topCard (initializeGameState deck16 roomAB) = Some top
    ∧ GameState.discardPile (initializeGameState deck16 roomAB) = [Some top]
    ∧ GameState.drawPile (initializeGameState deck16 roomAB)
      = drop (7 * 2) (take t deck16) ++ drop (S t) deck16
    ∧ length (GameState.drawPile (initializeGameState deck16 roomAB))
      = (16 - 7 * 2 - 1)%nat
    ∧ GameState.currentPlayerIndex (initializeGameState deck16 roomAB) = 0
    ∧ GameState.direction (initializeGameState deck16 roomAB) = clockwise
    ∧ GameState.gamePhase (initializeGameState deck16 roomAB) = playing.
Proof.
  refine (initialize_top_card deck16 roomAB 15 (sampleCard "d15" CardType.number)
            _ eq_refl eq_refl).
  vm_compute. lia.
Defined.

Lemma initialize_exhausted_witness :
  GameState.topCard (initializeGameState deck8 roomAB) = None
  ∧ GameState.discardPile (initializeGameState deck8 roomAB) = [None]
  ∧ GameState.drawPile (initializeGameState deck8 roomAB) = []
  ∧ hands (initializeGameState deck8 roomAB) ≡ₚ deck8.
Proof.
  apply (initialize_exhausted deck8 roomAB). vm_compute. lia.
Defined.

End FirstCard.

(** ** More on [playCard] *)

Section PlayCardMore.

Implicit Types (state : RoomSystemState) (g : GameState) (player : Player).

(** The three ways a call of [playCard] can go. *)
Lemma playCard_cases playerId card chosenColor state :
  playCard playerId card chosenColor state = Normal state
  ∨ (playCard playerId card chosenColor state = Throw
     ∧ ∃ g i player, in_game state g
         ∧ found_at playerId (GameState.players g) i player
         ∧ js_index (GameState.players g) (GameState.currentPlayerIndex g) = None)
  ∨ (∃ g i player currentPlayer, in_game state g
       ∧ found_at playerId (GameState.players g) i player
       ∧ js_index (GameState.players g) (GameState.currentPlayerIndex g)
         = Some currentPlayer
       ∧ Player.id player = Player.id currentPlayer).
Proof.
  unfold playCard.
  destruct (gameState state) as [g|] eqn:Hg; [|by left].
  destruct (falsy_string (currentPlayerId state)) eqn:Hid.
  { left. by rewrite orb_true_r. }
  rewrite bool_decide_true by (by eexists). cbn [negb orb].
  unfold playCard_update. rewrite Hg.
  destruct (list_find _ _) as [[i player]|] eqn:Hfind; [|by left].
  apply list_find_Some in Hfind.
  assert (Hfound : found_at playerId (GameState.players g) i player) by exact Hfind.
  destruct (js_index _ _) as [currentPlayer|] eqn:Hcur.
  - destruct (decide (Player.id player = Player.id currentPlayer)) as [Heq|Hne].
    + right; right. by exists g, i, player, currentPlayer.
    + left. by rewrite bool_decide_true.
  - right; left. split; [done|]. by exists g, i, player.
Qed.

Lemma profile_insert (ps : list Player) i p p' :
  ps !! i = Some p → profile p' = profile p →
  profile <$> <[i := p']> ps = profile <$> ps.
Proof.
  intros Hi Hprofile. rewrite list_fmap_insert, Hprofile.
  apply list_insert_id. by rewrite list_lookup_fmap, Hi.
Qed.

(** Replacing the entry at [i] changes the cards in the hands by the hand
    at [i] only. *)
Lemma hands_replace (ps : list Player) : ∀ i p,
  ps !! i = Some p →
  ∃ others, concat (Player.cards <$> ps) ≡ₚ Player.cards p ++ others
    ∧ ∀ p', concat (Player.cards <$> <[i := p']> ps) ≡ₚ Player.cards p' ++ others.
Proof.
  induction ps as [|q ps IH]; intros [|i] p Hi; simpl in Hi; [done|done| |].
  - injection Hi as ->. exists (concat (Player.cards <$> ps)). by split.
  - destruct (IH i p Hi) as (others & Hold & Hnew).
    exists (Player.cards q ++ others). split.
    + simpl. rewrite Hold. by rewrite !app_assoc, (Permutation_app_comm (Player.cards q)).
    + intros p'. simpl. rewrite (Hnew p').
      by rewrite !app_assoc, (Permutation_app_comm (Player.cards q)).
Qed.

(** Filtering a hand by the id of one of its cards removes that card alone
    when the ids of the hand are distinct. *)
Lemma filter_out_one (hand : list Card) (card : Card) :
  NoDup (Card.id <$> hand) → card ∈ hand →
  filter (λ c, Card.id c ≠ Card.id card) hand ++ [card] ≡ₚ hand.
Proof.
  induction hand as [|c hand IH]; intros Hnodup Hin; [by apply elem_of_nil in Hin|].
  rewrite fmap_cons in Hnodup. apply NoDup_cons in Hnodup as [Hfresh Hnodup].
  rewrite filter_cons. apply elem_of_cons in Hin as [->|Hin].
  - rewrite decide_False by (intros Hne; by apply Hne).
    assert (Hkeep : filter (λ x, Card.id x ≠ Card.id c) hand = hand).
    { clear -Hfresh. induction hand as [|x hand IH]; [done|].
      rewrite fmap_cons in Hfresh. apply not_elem_of_cons in Hfresh as [Hne Hfresh].
      rewrite filter_cons, decide_True by congruence. by rewrite IH. }
    rewrite Hkeep. symmetry. apply Permutation_cons_append.
  - assert (Hne : Card.id c ≠ Card.id card).
    { intros Heq. apply Hfresh. rewrite Heq. by apply list_elem_of_fmap_2. }
    rewrite decide_True by exact Hne. simpl. by rewrite (IH Hnodup Hin).
Qed.

(** X6: a call of [playCard] outside a session (no game state, or no local
    player id), or with an id no roster entry carries, returns the state it
    was given. *)
Theorem playCard_no_session_or_unknown playerId card chosenColor state :
  gameState state = None
  ∨ falsy_string (currentPlayerId state) = true
  ∨ (∀ g, gameState state = Some g →
       Forall (λ p, Player.id p ≠ playerId) (GameState.players g)) →
  playCard playerId card chosenColor state = Normal state.
Proof.
  intros Hcase.
  destruct (playCard_cases playerId card chosenColor state)
    as [Hsame|[(_ & g & i & player & [Hg Hid] & Hfound & _)
              |(g & i & player & cur & [Hg Hid] & Hfound & _)]];
    [exact Hsame| |];
    (destruct Hcase as [Hnone|[Hfalsy|Habsent]]; [congruence|congruence|];
     destruct Hfound as (Hi & Hpid & _);
     exfalso; exact (proj1 (Forall_lookup _ _) (Habsent g Hg) i player Hi Hpid)).
Qed.

Lemma playCard_no_session_or_unknown_witness :
  playCard "zz" (sampleCard "c1" CardType.number) None state3 = Normal state3.
Proof.
  apply playCard_no_session_or_unknown. right; right.
  intros g Hg. injection Hg as <-. repeat constructor; discriminate.
Defined.

(** X7: [playCard] ends in a [TypeError] exactly when the call passes the
    guard, the id is in the roster and nobody sits at [currentPlayerIndex]
    (the read of [currentPlayer.id]). *)
Theorem playCard_throws_iff playerId card chosenColor state :
  playCard playerId card chosenColor state = Throw
  ↔ ∃ g, in_game state g
      ∧ (∃ p, p ∈ GameState.players g ∧ Player.id p = playerId)
      ∧ js_index (GameState.players g) (GameState.currentPlayerIndex g) = None.
Proof.
  split.
  - intros Hthrow.
    destruct (playCard_cases playerId card chosenColor state)
      as [Hsame|[(_ & g & i & player & Hin & Hfound & Hnone)
                |(g & i & player & cur & Hin & Hfound & Hcur & Hid)]].
    + congruence.
    + exists g. split; [exact Hin|]. split; [|exact Hnone].
      exists player. destruct Hfound as (Hi & Hpid & _).
      split; [by eapply list_elem_of_lookup_2|exact Hpid].
    + destruct (playCard_accepted state g playerId card chosenColor i player cur
                  Hin Hfound Hcur Hid) as (g' & Hplay & _). congruence.
  - intros (g & Hin & (p & Hp & Hpid) & Hnone).
    unfold playCard. rewrite (guard_passes _ g) by exact Hin.
    unfold playCard_update. rewrite (proj1 Hin), Hnone.
    destruct (list_find _ _) as [[i player]|] eqn:Hfind; [reflexivity|].
    apply list_find_None in Hfind.
    exfalso. exact (proj1 (Forall_forall _ _) Hfind p Hp Hpid).
Qed.

End PlayCardMore.

Section PlayCardInvariants.

Implicit Types (state : RoomSystemState) (g : GameState) (player : Player).

Lemma set_cards_profile player cards : profile (set_cards player cards) = profile player.
Proof. reflexivity. Qed.

(** One step along the roster from a valid position lands on another valid
    position; with two players or more it is a different one. *)
Lemma next_index_in_range (index size : Z) :
  0 ≤ index < size →
  0 ≤ (index + 1) mod size < size ∧ ((2 ≤ size)%Z → (index + 1) mod size ≠ index).
Proof.
  intros Hrange. split; [apply Z.mod_pos_bound; lia|]. intros Hsize.
  destruct (decide (index + 1 < size)) as [Hlt|Hge].
  - rewrite Z.mod_small by lia. lia.
  - replace (index + 1) with size by lia. rewrite Z.mod_same by lia. lia.
Qed.

(** X8: whatever [playCard] is called with, a call that returns leaves the
    membership fields, the roster (ids, names, flags, order), the draw pile
    and the direction as they were, and a [currentPlayerIndex] that was a
    position of the roster is one afterwards. *)
Theorem playCard_keeps_roster playerId card chosenColor state state' g :
  gameState state = Some g →
  playCard playerId card chosenColor state = Normal state' →
  ∃ g', gameState state' = Some g'
    ∧ currentRoom state' = currentRoom state
    ∧ currentPlayerId state' = currentPlayerId state
    ∧ isHost state' = isHost state
    ∧ profile <$> GameState.players g' = profile <$> GameState.players g
    ∧ GameState.drawPile g' = GameState.drawPile g
    ∧ GameState.direction g' = GameState.direction g
    ∧ (index_in_range g → index_in_range g').
Proof.
  intros Hg Hplay.
  destruct (playCard_cases playerId card chosenColor state)
    as [Hsame|[(Hthrow & _)|(g0 & i & player & cur & Hin & Hfound & Hcur & Hid)]].
  - rewrite Hsame in Hplay. injection Hplay as <-. exists g.
    split; [exact Hg|]. do 6 (split; [reflexivity|]). done.
  - congruence.
  - assert (g0 = g) as -> by (destruct Hin; congruence).
    destruct (playCard_accepted state g playerId card chosenColor i player cur
                Hin Hfound Hcur Hid)
      as (g' & Hplay' & Hplayers & _ & _ & Hdraw & Hdir & _ & _ & Hwin & Hnext).
    rewrite Hplay' in Hplay. injection Hplay as <-.
    exists g'. split; [reflexivity|]. do 3 (split; [reflexivity|]).
    split.
    { rewrite Hplayers. apply (profile_insert _ _ player); [by destruct Hfound|done]. }
    split; [exact Hdraw|]. split; [exact Hdir|].
    unfold index_in_range. intros Hrange.
    rewrite Hplayers, length_insert.
    destruct (filter (λ c, Card.id c ≠ Card.id card) (Player.cards player)) as [|c cs].
    + destruct (Hwin eq_refl) as (_ & _ & ->). exact Hrange.
    + destruct (Hnext ltac:(discriminate)) as (_ & _ & ->).
      by apply next_index_in_range.
Qed.

Lemma playCard_keeps_roster_witness :
  ∃ g', gameState (with_gameState state3
                     (GameState.mk
                        [set_cards playerA [sampleCard "c2" CardType.skip]; playerB; playerC]
                        1 counter_clockwise (Some (sampleCard "c1" CardType.number))
                        (GameState.drawPile game3)
                        [Some (sampleCard "c9" CardType.number);
                         Some (sampleCard "c1" CardType.number)]
                        playing None None false)) = Some g'
    ∧ currentRoom state3 = currentRoom state3
    ∧ currentPlayerId state3 = currentPlayerId state3
    ∧ isHost state3 = isHost state3
    ∧ profile <$> GameState.players g' = profile <$> GameState.players game3
    ∧ GameState.drawPile g' = GameState.drawPile game3
    ∧ GameState.direction g' = GameState.direction game3
    ∧ (index_in_range game3 → index_in_range g').
Proof.
  exact (playCard_keeps_roster "a" (sampleCard "c1" CardType.number) None state3 _ game3
           eq_refl eq_refl).
Defined.

(** X9: a play of a card the mover holds, from a hand with distinct card
    ids, moves that card from the hand to the discard pile and nothing
    else: the card slots of the game are the same ones before and after. *)
Theorem playCard_conserves state g playerId card chosenColor i player currentPlayer :
  in_game state g →
  found_at playerId (GameState.players g) i player →
  js_index (GameState.players g) (GameState.currentPlayerIndex g) = Some currentPlayer →
  Player.id player = Player.id currentPlayer →
  NoDup (Card.id <$> Player.cards player) →
  card ∈ Player.cards player →
  ∃ g', playCard playerId card chosenColor state = Normal (with_gameState state g')
    ∧ all_cards g' ≡ₚ all_cards g
    ∧ GameState.discardPile g' = GameState.discardPile g ++ [Some card]
    ∧ length (hands g') = pred (length (hands g)).
Proof.
  intros Hin Hfound Hcur Hid Hnodup Hcard.
  destruct (playCard_accepted state g playerId card chosenColor i player currentPlayer
              Hin Hfound Hcur Hid)
    as (g' & Hplay & Hplayers & _ & Hdiscard & Hdraw & _).
  exists g'. split; [exact Hplay|].
  destruct (hands_replace (GameState.players g) i player (proj1 Hfound))
    as (others & Hold & Hnew).
  pose proof (filter_out_one _ _ Hnodup Hcard) as Hone.
  set (cards' := filter (λ c, Card.id c ≠ Card.id card) (Player.cards player)) in *.
  specialize (Hnew (set_cards player cards')). cbn [set_cards Player.cards] in Hnew.
  split; [|split; [exact Hdiscard|]].
  - unfold all_cards, hands. rewrite Hplayers, Hdiscard, Hdraw, Hnew, Hold, <- Hone.
    rewrite !fmap_app. cbn [fmap list_fmap].
    set (C := Some <$> cards'). set (O := Some <$> others).
    set (D := Some <$> GameState.drawPile g). set (X := GameState.discardPile g).
    rewrite <- !app_assoc. apply Permutation_app_head.
    rewrite (app_assoc O), (app_assoc (O ++ D)). cbn [app].
    symmetry. rewrite (app_assoc O). apply Permutation_cons_append.
  - unfold hands. rewrite Hplayers, Hnew, Hold, <- Hone, !length_app. simpl. lia.
Qed.

Lemma playCard_conserves_witness :
  ∃ g', playCard "a" (sampleCard "c1" CardType.number) None state3
        = Normal (with_gameState state3 g')
    ∧ all_cards g' ≡ₚ all_cards game3
    ∧ GameState.discardPile g'
      = GameState.discardPile game3 ++ [Some (sampleCard "c1" CardType.number)]
    ∧ length (hands g') = pred (length (hands game3)).
Proof.
  refine (playCard_conserves state3 game3 "a" (sampleCard "c1" CardType.number) None
            0 playerA playerA state3_in_game playerA_found eq_refl eq_refl _ _).
  - apply (bool_decide_unpack _). by vm_compute.
  - by left.
Defined.

(** X10: an accepted play touches the mover's hand only; that hand keeps its
    order, loses cards and gains none, and afterwards holds no card with
    the id played. *)
Theorem playCard_removes_every_copy state g playerId card chosenColor i player currentPlayer :
  in_game state g →
  found_at playerId (GameState.players g) i player →
  js_index (GameState.players g) (GameState.currentPlayerIndex g) = Some currentPlayer →
  Player.id player = Player.id currentPlayer →
  ∃ g' player',
    playCard playerId card chosenColor state = Normal (with_gameState state g')
    ∧ GameState.players g' !! i = Some player'
    ∧ Forall (λ c, Card.id c ≠ Card.id card) (Player.cards player')
    ∧ sublist (Player.cards player') (Player.cards player)
    ∧ ∀ j, j ≠ i → GameState.players g' !! j = GameState.players g !! j.
Proof.
  intros Hin Hfound Hcur Hid.
  destruct (playCard_accepted state g playerId card chosenColor i player currentPlayer
              Hin Hfound Hcur Hid) as (g' & Hplay & Hplayers & _).
  exists g', (set_cards player
                (filter (λ c, Card.id c ≠ Card.id card) (Player.cards player))).
  split; [exact Hplay|]. rewrite Hplayers. split.
  { apply list_lookup_insert_eq. destruct Hfound as [Hi _]. by apply lookup_lt_Some in Hi. }
  cbn [set_cards Player.cards]. split.
  { apply Forall_forall. intros c Hc. by apply list_elem_of_filter in Hc as [? _]. }
  split; [apply sublist_filter|].
  intros j Hj. by apply list_lookup_insert_ne.
Qed.

Lemma playCard_removes_every_copy_witness :
  ∃ g' player',
    playCard "a" (sampleCard "c1" CardType.number) None state3
    = Normal (with_gameState state3 g')
    ∧ GameState.players g' !! 0%nat = Some player'
    ∧ Forall (λ c, Card.id c ≠ "c1") (Player.cards player')
    ∧ sublist (Player.cards player') (Player.cards playerA)
    ∧ ∀ j, j ≠ 0%nat → GameState.players g' !! j = GameState.players game3 !! j.
Proof.
  exact (playCard_removes_every_copy state3 game3 "a" (sampleCard "c1" CardType.number)
           None 0 playerA playerA state3_in_game playerA_found eq_refl eq_refl).
Defined.

End PlayCardInvariants.

Section TurnOrder.

Implicit Types (state : RoomSystemState) (g : GameState) (player : Player).

(** In a roster with distinct ids the entry [find] returns for the id of
    the entry at [j] is that entry. *)
Lemma found_at_unique playerId (ps : list Player) i j player q :
  NoDup (Player.id <$> ps) →
  found_at playerId ps i player → ps !! j = Some q → Player.id q = playerId → i = j.
Proof.
  intros Hnodup (Hi & Hid & _) Hj Hq.
  apply (NoDup_lookup (Player.id <$> ps) i j playerId Hnodup);
    rewrite list_lookup_fmap; [by rewrite Hi; simpl; rewrite Hid|by rewrite Hj; simpl; rewrite Hq].
Qed.

(** X11: nobody plays twice in a row.  In a roster of two or more with
    distinct ids, after an accepted play that leaves the mover with cards,
    any further [playCard] by the same player is turned down: the state it
    returns is the state it was given. *)
Theorem playCard_no_double_play state g playerId card chosenColor i player currentPlayer :
  in_game state g →
  found_at playerId (GameState.players g) i player →
  js_index (GameState.players g) (GameState.currentPlayerIndex g) = Some currentPlayer →
  Player.id player = Player.id currentPlayer →
  NoDup (Player.id <$> GameState.players g) →
  (2 ≤ length (GameState.players g))%nat →
  filter (λ c, Card.id c ≠ Card.id card) (Player.cards player) ≠ [] →
  ∃ state', playCard playerId card chosenColor state = Normal state'
    ∧ ∀ card2 chosenColor2, playCard playerId card2 chosenColor2 state' = Normal state'.
Proof.
  intros Hin Hfound Hcur Hid Hnodup Hsize Hleft.
  destruct (playCard_accepted state g playerId card chosenColor i player currentPlayer
              Hin Hfound Hcur Hid)
    as (g' & Hplay & Hplayers & _ & _ & _ & _ & _ & _ & _ & Hnext).
  destruct (Hnext Hleft) as (_ & _ & Hindex).
  exists (with_gameState state g'). split; [exact Hplay|].
  intros card2 chosenColor2.
  pose proof (js_index_Some _ _ _ Hcur) as Hrange.
  destruct (next_index_in_range _ _ Hrange) as [Hrange' Hmoved].
  specialize (Hmoved ltac:(lia)).
  set (index' := (GameState.currentPlayerIndex g + 1)
                   mod Z.of_nat (length (GameState.players g))) in *.
  (* the mover sits at the old index *)
  assert (Hat : i = Z.to_nat (GameState.currentPlayerIndex g)).
  { unfold js_index in Hcur. rewrite bool_decide_false in Hcur by lia.
    apply (found_at_unique playerId _ _ _ player currentPlayer Hnodup Hfound Hcur).
    rewrite <- Hid. by destruct Hfound as (_ & ? & _). }
  (* somebody else sits at the new one *)
  destruct (lookup_lt_is_Some_2 (GameState.players g) (Z.to_nat index')) as [q Hq]; [lia|].
  assert (Hq' : js_index (GameState.players g') (GameState.currentPlayerIndex g') = Some q).
  { rewrite Hindex, Hplayers. unfold js_index. rewrite bool_decide_false by lia.
    rewrite list_lookup_insert_ne by lia. exact Hq. }
  assert (Hother : Player.id q ≠ playerId).
  { intros Heq. pose proof (found_at_unique _ _ _ _ _ _ Hnodup Hfound Hq Heq). lia. }
  destruct (playCard_cases playerId card2 chosenColor2 (with_gameState state g'))
    as [Hsame|[(_ & g1 & i1 & p1 & [Hg1 _] & _ & Hnone)
              |(g1 & i1 & p1 & cur1 & [Hg1 _] & (_ & Hp1 & _) & Hcur1 & Hid1)]].
  - exact Hsame.
  - injection Hg1 as <-. congruence.
  - injection Hg1 as <-. rewrite Hq' in Hcur1. injection Hcur1 as <-. congruence.
Qed.

Lemma playCard_no_double_play_witness :
  ∃ state', playCard "a" (sampleCard "c1" CardType.number) None state3 = Normal state'
    ∧ ∀ card2 chosenColor2, playCard "a" card2 chosenColor2 state' = Normal state'.
Proof.
  refine (playCard_no_double_play state3 game3 "a" (sampleCard "c1" CardType.number) None
            0 playerA playerA state3_in_game playerA_found eq_refl eq_refl _ _ _).
  - apply (bool_decide_unpack _). by vm_compute.
  - vm_compute. lia.
  - discriminate.
Defined.

End TurnOrder.

(** ** More on [drawCard] *)

Section DrawCardMore.

Implicit Types (state : RoomSystemState) (g : GameState) (player : Player).

(** A call of [drawCard] either stops before its loop or reaches a roster
    entry. *)
Lemma drawCard_cases playerId state :
  (∀ count, drawCard_settled playerId count state = (state, []))
  ∨ ∃ g i player, in_game state g ∧ found_at playerId (GameState.players g) i player.
Proof.
  unfold drawCard_settled.
  destruct (gameState state) as [g|] eqn:Hg; [|by left].
  destruct (falsy_string (currentPlayerId state)) eqn:Hid.
  { left. intros count. by rewrite orb_true_r. }
  destruct (list_find (λ p, Player.id p = playerId) (GameState.players g))
    as [[i player]|] eqn:Hfind.
  - right. exists g, i, player. split; [by split|]. by apply list_find_Some in Hfind.
  - left. intros count. rewrite bool_decide_true by (by eexists). cbn [negb orb].
    unfold drawCard_update. by rewrite Hg, Hfind.
Qed.

Lemma with_gameState_same state g : gameState state = Some g → with_gameState state g = state.
Proof. intros Hg. destruct state. simpl in *. by rewrite Hg. Qed.

Lemma drawCard_settled_nothing state playerId (count : Z) :
  (count ≤ 0)%Z → drawCard_settled playerId count state = (state, []).
Proof.
  intros Hcount.
  destruct (drawCard_cases playerId state) as [Hskip|(g & i & player & Hin & Hfound)];
    [apply Hskip|].
  rewrite (drawCard_found state g playerId i player count Hin Hfound).
  replace (Z.to_nat count) with 0%nat by lia.
  rewrite Nat.sub_0_r, firstn_all, drop_all. cbn [reverse rev_append].
  rewrite app_nil_r, set_cards_same, (list_insert_id _ _ _ (proj1 Hfound)).
  f_equal. rewrite <- (with_gameState_same state g (proj1 Hin)) at 2.
  f_equal. by destruct g.
Qed.

(** X12: [drawCard] with a count of zero or less draws nothing and returns
    the state it was given, whoever the player is; the array it returns is
    empty and stays empty. *)
Theorem drawCard_nothing_to_draw state playerId (count : Z) :
  (count ≤ 0)%Z →
  drawCard playerId count state = (state, [])
  ∧ drawnCards_filled playerId count state = [].
Proof.
  intros Hcount. unfold drawCard, drawnCards_filled.
  by rewrite (drawCard_settled_nothing state playerId count Hcount).
Qed.

Lemma drawCard_nothing_to_draw_witness :
  drawCard "b" (-3) state3 = (state3, []) ∧ drawnCards_filled "b" (-3) state3 = [].
Proof. apply drawCard_nothing_to_draw. lia. Defined.

(** X13: whatever [drawCard] is called with, it moves cards from the draw
    pile to one hand and nowhere else: the card slots of the game are the
    same before and after, the roster (ids, names, flags, order), the
    discard pile, the top card and the turn index stay. *)
Theorem drawCard_conserves state g playerId (count : Z) :
  gameState state = Some g →
  ∃ g', gameState (drawCard playerId count state).1 = Some g'
    ∧ all_cards g' ≡ₚ all_cards g
    ∧ profile <$> GameState.players g' = profile <$> GameState.players g
    ∧ GameState.discardPile g' = GameState.discardPile g
    ∧ GameState.topCard g' = GameState.topCard g
    ∧ GameState.currentPlayerIndex g' = GameState.currentPlayerIndex g.
Proof.
  intros Hg. unfold drawCard. cbn [fst].
  destruct (drawCard_cases playerId state) as [Hskip|(g0 & i & player & Hin & Hfound)].
  { rewrite Hskip. exists g. by repeat split. }
  assert (g0 = g) as -> by (destruct Hin; congruence).
  rewrite (drawCard_found state g playerId i player count Hin Hfound).
  eexists. split; [reflexivity|]. cbn [GameState.players GameState.discardPile
    GameState.topCard GameState.currentPlayerIndex].
  split; [|split; [|done]].
  - unfold all_cards, hands. cbn [GameState.players GameState.drawPile GameState.discardPile].
    set (pile := GameState.drawPile g).
    set (keep := (length pile - Z.to_nat count)%nat).
    destruct (hands_replace (GameState.players g) i player (proj1 Hfound))
      as (others & Hold & Hnew).
    rewrite Hnew, Hold. cbn [set_cards Player.cards].
    rewrite !app_assoc. apply Permutation_app_tail.
    rewrite <- !fmap_app. apply fmap_Permutation.
    assert (Hpile : reverse (drop keep pile) ++ take keep pile ≡ₚ pile).
    { rewrite (reverse_Permutation (drop keep pile)), Permutation_app_comm.
      by rewrite take_drop. }
    rewrite <- !app_assoc. apply Permutation_app_head.
    etrans; [apply Permutation_app_swap_app|].
    apply Permutation_app_head. exact Hpile.
  - apply (profile_insert _ _ player); [by destruct Hfound|done].
Qed.

Lemma drawCard_conserves_witness :
  ∃ g', gameState (drawCard "b" 2 state3).1 = Some g'
    ∧ all_cards g' ≡ₚ all_cards game3
    ∧ profile <$> GameState.players g' = profile <$> GameState.players game3
    ∧ GameState.discardPile g' = GameState.discardPile game3
    ∧ GameState.topCard g' = GameState.topCard game3
    ∧ GameState.currentPlayerIndex g' = GameState.currentPlayerIndex game3.
Proof. exact (drawCard_conserves state3 game3 "b" 2 eq_refl). Defined.





End DrawCardMore.

(** ** [callUno] *)

Section CallUno.

Implicit Types (state : RoomSystemState) (g : GameState) (player : Player).

Lemma found_at_same playerId (ps : list Player) i j p q :
  found_at playerId ps i p → found_at playerId ps j q → i = j ∧ p = q.
Proof.
  intros (Hi & Hp & Hfirsti) (Hj & Hq & Hfirstj).
  assert (i = j) as ->.
  { destruct (Nat.lt_trichotomy i j) as [Hlt|[Heq|Hgt]]; [|done|].
    - by destruct (Hfirstj i p Hi Hlt).
    - by destruct (Hfirsti j q Hj Hgt). }
  split; [done|congruence].
Qed.

Lemma found_at_insert playerId (ps : list Player) i p p' :
  found_at playerId ps i p → Player.id p' = Player.id p →
  found_at playerId (<[i := p']> ps) i p'.
Proof.
  intros (Hi & Hid & Hfirst) Hsame. split; [|split; [congruence|]].
  - apply list_lookup_insert_eq. by apply lookup_lt_Some in Hi.
  - intros j q Hq Hj. apply (Hfirst j q); [|exact Hj].
    by rewrite list_lookup_insert_ne in Hq by lia.
Qed.

Lemma game_with_players_same g : game_with_players g (GameState.players g) = g.
Proof. by destruct g. Qed.

(** X15: [callUno] changes nothing but [hasCalledUno] flags: hands, ids,
    piles, top card, turn and phase stay, and an entry's flag is set
    afterwards exactly when it was set before or the entry is the one
    [find] returns for the id and holds exactly one card. *)
Theorem callUno_only_sets_flag state g playerId :
  gameState state = Some g →
  ∃ g', callUno playerId state = with_gameState state g'
    ∧ g' = game_with_players g (GameState.players g')
    ∧ Player.cards <$> GameState.players g' = Player.cards <$> GameState.players g
    ∧ Player.id <$> GameState.players g' = Player.id <$> GameState.players g
    ∧ ∀ j p p', GameState.players g !! j = Some p → GameState.players g' !! j = Some p' →
        Player.hasCalledUno p' = true
        ↔ Player.hasCalledUno p = true
          ∨ (found_at playerId (GameState.players g) j p
             ∧ length (Player.cards p) = 1%nat).
Proof.
  intros Hg. unfold callUno. rewrite Hg.
  rewrite bool_decide_true by (by eexists). cbn [negb].
  unfold callUno_update. rewrite Hg.
  destruct (list_find _ _) as [[i player]|] eqn:Hfind.
  - apply list_find_Some in Hfind.
    assert (Hfound : found_at playerId (GameState.players g) i player) by exact Hfind.
    pose proof (proj1 Hfound) as Hi.
    destruct (decide (length (Player.cards player) = 1%nat)) as [Hone|Hmore].
    + rewrite bool_decide_true by exact Hone.
      eexists. split; [reflexivity|]. cbn [game_with_players GameState.players].
      split; [reflexivity|].
      split; [rewrite list_fmap_insert; apply list_insert_id; by rewrite list_lookup_fmap, Hi|].
      split; [rewrite list_fmap_insert; apply list_insert_id; by rewrite list_lookup_fmap, Hi|].
      intros j p p' Hp Hp'. destruct (decide (j = i)) as [->|Hne].
      * rewrite list_lookup_insert_eq in Hp' by (by apply lookup_lt_Some in Hi).
        injection Hp' as <-. assert (p = player) as -> by congruence.
        cbn [set_hasCalledUno Player.hasCalledUno]. split; [by right|done].
      * rewrite list_lookup_insert_ne in Hp' by done.
        assert (p' = p) as -> by congruence.
        split; [by left|]. intros [Hset|[Hfound' _]]; [done|].
        by destruct (found_at_same _ _ _ _ _ _ Hfound Hfound') as [-> _].
    + rewrite bool_decide_false by exact Hmore.
      exists g. split; [reflexivity|]. split; [by rewrite game_with_players_same|].
      split; [done|]. split; [done|].
      intros j p p' Hp Hp'. assert (p' = p) as -> by congruence.
      split; [by left|]. intros [Hset|[Hfound' Hone]]; [done|].
      by destruct (found_at_same _ _ _ _ _ _ Hfound Hfound') as [-> ->].
  - exists g. split; [reflexivity|]. split; [by rewrite game_with_players_same|].
    split; [done|]. split; [done|].
    intros j p p' Hp Hp'. assert (p' = p) as -> by congruence.
    split; [by left|]. intros [Hset|[(Hj & Hid & _) _]]; [done|].
    apply list_find_None in Hfind.
    by destruct (proj1 (Forall_lookup _ _) Hfind j p Hj).
Qed.

Lemma callUno_only_sets_flag_witness :
  ∃ g', callUno "b" state3 = with_gameState state3 g'
    ∧ g' = game_with_players game3 (GameState.players g')
    ∧ Player.cards <$> GameState.players g' = Player.cards <$> GameState.players game3
    ∧ Player.id <$> GameState.players g' = Player.id <$> GameState.players game3
    ∧ ∀ j p p', GameState.players game3 !! j = Some p →
        GameState.players g' !! j = Some p' →
        Player.hasCalledUno p' = true
        ↔ Player.hasCalledUno p = true
          ∨ (found_at "b" (GameState.players game3) j p ∧ length (Player.cards p) = 1%nat).
Proof. exact (callUno_only_sets_flag state3 game3 "b" eq_refl). Defined.

(** X16: a second [callUno] for the same id changes nothing more. *)
Theorem callUno_idempotent state playerId :
  callUno playerId (callUno playerId state) = callUno playerId state.
Proof.
  destruct (gameState state) as [g|] eqn:Hg.
  2:{ assert (Hsame : callUno playerId state = state).
      { unfold callUno. rewrite Hg. by rewrite bool_decide_false by (by intros [? ?]). }
      by rewrite !Hsame. }
  assert (Hfirst : callUno playerId state = callUno_update playerId state).
  { unfold callUno. rewrite Hg. by rewrite bool_decide_true by (by eexists). }
  assert (Hagain : ∀ g1, callUno playerId (with_gameState state g1)
                         = callUno_update playerId (with_gameState state g1)).
  { intros g1. unfold callUno. cbn [with_gameState gameState].
    by rewrite bool_decide_true by (by eexists). }
  rewrite Hfirst.
  unfold callUno_update at 1 2. rewrite Hg.
  destruct (list_find _ _) as [[i player]|] eqn:Hfind.
  - pose proof Hfind as Hfound. apply list_find_Some in Hfound.
    change (found_at playerId (GameState.players g) i player) in Hfound.
    destruct (decide (length (Player.cards player) = 1%nat)) as [Hone|Hmore].
    + rewrite bool_decide_true by exact Hone. rewrite Hagain.
      unfold callUno_update. cbn [with_gameState gameState game_with_players GameState.players].
      rewrite (find_found playerId _ i (set_hasCalledUno player true))
        by (by apply (found_at_insert _ _ _ player)).
      cbn [set_hasCalledUno Player.cards]. rewrite bool_decide_true by exact Hone.
      by rewrite list_insert_insert_eq.
    + rewrite bool_decide_false by exact Hmore. rewrite Hagain.
      unfold callUno_update. cbn [with_gameState gameState].
      rewrite Hfind. by rewrite bool_decide_false by exact Hmore.
  - rewrite Hagain. unfold callUno_update. cbn [with_gameState gameState].
    by rewrite Hfind.
Qed.

End CallUno.

(** ** Entering and leaving a room *)

Section Lifecycle.

Implicit Types (state s : RoomSystemState) (result : RoomResult).

Lemma or_else_nonempty e d : d ≠ "" → or_else e d ≠ "".
Proof.
  intros Hd. unfold or_else. destruct e as [message|]; [|exact Hd].
  by case bool_decide_reflect.
Qed.

Lemma falsy_string_false (o : option string) :
  falsy_string o = false → ∃ text, o = Some text ∧ text ≠ "".
Proof.
  destruct o as [text|]; [|discriminate]. simpl.
  case bool_decide_reflect; [discriminate|]. by exists text.
Qed.

(** How a request to enter a room ends, whichever of the two it is. *)
Lemma request_outcome asHost failedMessage outcome state s r :
  failedMessage ≠ "" →
  (s, r)
  = (let prev := requestStarted state in
     match outcome with
     | Some result =>
         if RoomResult.success result
            && bool_decide (is_Some (RoomResult.room result))
            && negb (falsy_string (RoomResult.playerId result))
         then (mkState (RoomResult.room result) (RoomResult.playerId result) asHost
                 (activeRooms prev) false (error prev) (isConnected prev) None,
               result)
         else (requestFailed (or_else (RoomResult.error result) failedMessage) prev,
               result)
     | None =>
         (requestFailed serverErrorMessage prev,
          RoomResult.mk false None None (Some serverErrorMessage))
     end) →
  loading s = false
  ∧ activeRooms s = activeRooms state
  ∧ isConnected s = isConnected state
  ∧ ((outcome = Some r ∧ entered asHost r s)
     ∨ (refused state s ∧ (outcome = None → RoomResult.success r = false))).
Proof.
  intros Hmessage Hrun. cbn zeta in Hrun.
  destruct outcome as [result|].
  - destruct (RoomResult.success result) eqn:Hsuccess; cbn [andb] in Hrun.
    + destruct (RoomResult.room result) as [room|] eqn:Hroom.
      * rewrite bool_decide_true in Hrun by (by eexists). cbn [andb] in Hrun.
        destruct (falsy_string (RoomResult.playerId result)) eqn:Hid; cbn [negb] in Hrun;
          injection Hrun as -> ->.
        -- do 3 (split; [reflexivity|]). right. split; [|done].
           split; [reflexivity|]. eexists. split; [reflexivity|].
           by apply or_else_nonempty.
        -- do 3 (split; [reflexivity|]). left. split; [reflexivity|].
           destruct (falsy_string_false _ Hid) as (playerId & Hpid & Hne).
           exists room, playerId. by rewrite Hpid.
      * rewrite bool_decide_false in Hrun by (by intros [? ?]). cbn [andb] in Hrun.
        injection Hrun as -> ->.
        do 3 (split; [reflexivity|]). right. split; [|done].
        split; [reflexivity|]. eexists. split; [reflexivity|].
        by apply or_else_nonempty.
    + injection Hrun as -> ->.
      do 3 (split; [reflexivity|]). right. split; [|done].
      split; [reflexivity|]. eexists. split; [reflexivity|].
      by apply or_else_nonempty.
  - injection Hrun as -> ->.
    do 3 (split; [reflexivity|]). right. split; [|done].
    split; [reflexivity|]. by eexists.
Qed.

(** X17: [createRoom] and [joinRoom] always end with [loading] off and the
    room listing untouched, in one of two ways: the reply has [success], a
    room and a non-empty player id, and the client is in that room under
    that id (host after [createRoom], not host after [joinRoom]) with no
    game and no error; or room, player id, host flag and game are as before
    the call and [error] holds a non-empty message. *)
Theorem room_request_outcome outcome state :
  (loading (createRoom outcome state).1 = false
   ∧ activeRooms (createRoom outcome state).1 = activeRooms state
   ∧ isConnected (createRoom outcome state).1 = isConnected state
   ∧ ((outcome = Some (createRoom outcome state).2
       ∧ entered true (createRoom outcome state).2 (createRoom outcome state).1)
      ∨ (refused state (createRoom outcome state).1
         ∧ (outcome = None → RoomResult.success (createRoom outcome state).2 = false))))
  ∧ (loading (joinRoom outcome state).1 = false
     ∧ activeRooms (joinRoom outcome state).1 = activeRooms state
     ∧ isConnected (joinRoom outcome state).1 = isConnected state
     ∧ ((outcome = Some (joinRoom outcome state).2
         ∧ entered false (joinRoom outcome state).2 (joinRoom outcome state).1)
        ∨ (refused state (joinRoom outcome state).1
           ∧ (outcome = None → RoomResult.success (joinRoom outcome state).2 = false)))).
Proof.
  split.
  - apply (request_outcome true createFailedMessage outcome state); [discriminate|].
    exact (eq_sym (surjective_pairing (createRoom outcome state))).
  - apply (request_outcome false joinFailedMessage outcome state); [discriminate|].
    exact (eq_sym (surjective_pairing (joinRoom outcome state))).
Qed.

(** X18: a host who creates a room and starts the game gets a game dealt to
    the room's roster and can play: the guard of the game callbacks lets
    the host through. *)
Theorem host_creates_and_starts state result room playerId start deck :
  RoomResult.success result = true →
  RoomResult.room result = Some room →
  RoomResult.playerId result = Some playerId → playerId ≠ "" →
  StartResult.success start = true →
  ∃ s, startGame start deck (createRoom (Some result) state).1 = (s, true)
    ∧ in_game s (initializeGameState deck room)
    ∧ currentRoom s = Some room
    ∧ profile <$> GameState.players (initializeGameState deck room)
      = (λ rp, (RoomPlayer.id rp, RoomPlayer.name rp, true, false)) <$> Room.players room.
Proof.
  intros Hsuccess Hroom Hid Hne Hstart.
  unfold createRoom. rewrite Hsuccess, Hroom, Hid.
  rewrite bool_decide_true by (by eexists). cbn [andb falsy_string].
  rewrite bool_decide_false by exact Hne. cbn [negb fst].
  unfold startGame. cbn [currentRoom isHost]. rewrite Hstart.
  eexists. split; [reflexivity|]. split.
  { split; [reflexivity|]. cbn [startWith with_gameState currentPlayerId falsy_string].
    by rewrite bool_decide_false. }
  split; [reflexivity|]. rewrite initialize_profiles, <- list_fmap_compose. done.
Qed.

Lemma host_creates_and_starts_witness :
  ∃ s, startGame (StartResult.mk true None) deck16
         (createRoom (Some (RoomResult.mk true (Some roomAB) (Some "a") None)) initialState).1
       = (s, true)
    ∧ in_game s (initializeGameState deck16 roomAB)
    ∧ currentRoom s = Some roomAB
    ∧ profile <$> GameState.players (initializeGameState deck16 roomAB)
      = (λ rp, (RoomPlayer.id rp, RoomPlayer.name rp, true, false)) <$> Room.players roomAB.
Proof.
  refine (host_creates_and_starts initialState
            (RoomResult.mk true (Some roomAB) (Some "a") None) roomAB "a"
            (StartResult.mk true None) deck16 eq_refl eq_refl eq_refl _ eq_refl).
  discriminate.
Defined.

(** X19: a client who joined a room is not its host here: [startGame] and
    [kickPlayer] return false without a change, whatever the transport
    would answer, and [toggleReady] passes the transport's answer on. *)
Theorem guest_cannot_start state result room playerId start deck reply :
  RoomResult.success result = true →
  RoomResult.room result = Some room →
  RoomResult.playerId result = Some playerId → playerId ≠ "" →
  startGame start deck (joinRoom (Some result) state).1
  = ((joinRoom (Some result) state).1, false)
  ∧ kickPlayer reply (joinRoom (Some result) state).1 = false
  ∧ toggleReady reply (joinRoom (Some result) state).1 = reply.
Proof.
  intros Hsuccess Hroom Hid Hne.
  unfold joinRoom. rewrite Hsuccess, Hroom, Hid.
  rewrite bool_decide_true by (by eexists). cbn [andb falsy_string].
  rewrite bool_decide_false by exact Hne. cbn [negb fst].
  by repeat split.
Qed.

Lemma guest_cannot_start_witness :
  startGame (StartResult.mk true None) deck16 (joinRoom (Some joinReply) initialState).1
  = ((joinRoom (Some joinReply) initialState).1, false)
  ∧ kickPlayer true (joinRoom (Some joinReply) initialState).1 = false
  ∧ toggleReady true (joinRoom (Some joinReply) initialState).1 = true.
Proof.
  refine (guest_cannot_start initialState joinReply roomAB "b" (StartResult.mk true None)
            deck16 true eq_refl eq_refl eq_refl _).
  discriminate.
Defined.

(** X20: [startGame] returns true exactly for a host in a room whose start
    request succeeded.  It never touches room, player id or host flag; a
    call that returns false leaves the game as it was; a call that returns
    true installs the game dealt from the current room and leaves [error]. *)
Theorem startGame_gate start deck state :
  ((startGame start deck state).2 = true
   ↔ isHost state = true ∧ is_Some (currentRoom state)
     ∧ StartResult.success start = true)
  ∧ currentRoom (startGame start deck state).1 = currentRoom state
  ∧ currentPlayerId (startGame start deck state).1 = currentPlayerId state
  ∧ isHost (startGame start deck state).1 = isHost state
  ∧ ((startGame start deck state).2 = false →
       gameState (startGame start deck state).1 = gameState state)
  ∧ ((startGame start deck state).2 = true →
       error (startGame start deck state).1 = error state
       ∧ ∃ room, currentRoom state = Some room
           ∧ gameState (startGame start deck state).1
             = Some (initializeGameState deck room)).
Proof.
  unfold startGame.
  destruct (currentRoom state) as [room|] eqn:Hroom.
  2:{ cbn [fst snd]. rewrite Hroom. split; [|by repeat split].
      split; [discriminate|]. by intros (_ & [? ?] & _). }
  destruct (isHost state) eqn:Hhost.
  2:{ cbn [fst snd]. rewrite Hroom, Hhost. split; [|by repeat split].
      split; [discriminate|]. by intros (? & _). }
  destruct (StartResult.success start) eqn:Hstart.
  - cbn [fst snd startWith with_gameState currentRoom currentPlayerId isHost gameState error].
    rewrite Hroom, Hhost. split; [by split; [|]; eauto|].
    do 3 (split; [reflexivity|]). split; [discriminate|].
    intros _. split; [reflexivity|]. by exists room.
  - destruct (falsy_string (StartResult.error start)); cbn [negb fst snd];
      cbn [with_error currentRoom currentPlayerId isHost gameState];
      rewrite ?Hroom, ?Hhost;
      (split; [split; [discriminate|by intros (_ & _ & ?)]|by repeat split]).
Qed.

End Lifecycle.

(** ** The listeners, composed *)

Section Reconcile.

Implicit Types (state s : RoomSystemState) (room : Room) (ps : list RoomPlayer).

Lemma absent_kept playerId ps :
  entries_with_id playerId ps = [] → filter (λ p, RoomPlayer.id p ≠ playerId) ps = ps.
Proof.
  unfold entries_with_id. induction ps as [|p ps IH]; [done|].
  rewrite !filter_cons. destruct (decide (RoomPlayer.id p = playerId)) as [Heq|Hne].
  - discriminate.
  - intros Hrest. rewrite decide_True by exact Hne. by rewrite IH.
Qed.

Lemma left_entries playerId other ps :
  entries_with_id other (filter (λ p, RoomPlayer.id p ≠ playerId) ps)
  = if decide (other = playerId) then [] else entries_with_id other ps.
Proof.
  unfold entries_with_id. induction ps as [|p ps IH]; [by destruct (decide _)|].
  rewrite (filter_cons (λ p, RoomPlayer.id p ≠ playerId)).
  destruct (decide (RoomPlayer.id p ≠ playerId)) as [Hne|Heq].
  - rewrite !filter_cons, IH.
    destruct (decide (RoomPlayer.id p = other)) as [<-|Hother].
    + destruct (decide (RoomPlayer.id p = playerId)); [congruence|done].
    + done.
  - apply dec_stable in Heq. rewrite IH, filter_cons.
    destruct (decide (other = playerId)) as [->|Hother]; [done|].
    by rewrite decide_False by congruence.
Qed.

Lemma teardown_torn_down state :
  torn_down (leaveRoom state) ∧ torn_down (applyRoomEvent KICKED_FROM_ROOM state).
Proof. by repeat split. Qed.

(** X21: after [leaveRoom] or [KICKED_FROM_ROOM] the client is out for good
    as far as these streams go: every room event but another kick leaves
    the state as it is, [playCard], [drawCard], [callUno] and [startGame]
    do nothing, and [playCard] and [drawCard] stay without effect even when
    a game snapshot arrives afterwards; the array a [drawCard] returns
    stays empty. *)
Theorem teardown_is_inert state s :
  s = leaveRoom state ∨ s = applyRoomEvent KICKED_FROM_ROOM state →
  (∀ event, event ≠ KICKED_FROM_ROOM → applyRoomEvent event s = s)
  ∧ (∀ playerId card chosenColor, playCard playerId card chosenColor s = Normal s)
  ∧ (∀ playerId count, drawCard playerId count s = (s, []))
  ∧ (∀ playerId, callUno playerId s = s)
  ∧ (∀ start deck, startGame start deck s = (s, false))
  ∧ (∀ g playerId card chosenColor,
       playCard playerId card chosenColor (applyGameEvent (GAME_STATE_UPDATE g) s)
       = Normal (applyGameEvent (GAME_STATE_UPDATE g) s))
  ∧ (∀ g playerId count,
       drawCard playerId count (applyGameEvent (GAME_STATE_UPDATE g) s)
       = (applyGameEvent (GAME_STATE_UPDATE g) s, []))
  ∧ (∀ playerId count, drawnCards_filled playerId count s = [])
  ∧ (∀ g playerId count,
       drawnCards_filled playerId count (applyGameEvent (GAME_STATE_UPDATE g) s) = []).
Proof.
  intros Hs.
  assert (Hdown : torn_down s).
  { destruct (teardown_torn_down state). by destruct Hs as [->| ->]. }
  destruct Hdown as (Hroom & Hid & Hhost & Hgame).
  split.
  { intros event Hevent.
    destruct event; simpl; rewrite ?Hroom; try done.
    rewrite Hid. rewrite bool_decide_false by discriminate.
    destruct s. simpl in *. by rewrite Hhost. }
  split; [intros; unfold playCard; by rewrite Hgame|].
  split; [intros; by apply drawCard_outside_game; left|].
  split; [intros; unfold callUno; rewrite Hgame;
          by rewrite bool_decide_false by (by intros [? ?])|].
  split; [intros; unfold startGame; by rewrite Hroom|].
  split.
  - intros. unfold playCard. cbn [applyGameEvent with_gameState gameState currentPlayerId].
    rewrite Hid. cbn [falsy_string]. by rewrite orb_true_r.
  - assert (Hsnap : ∀ g playerId count,
              drawCard playerId count (applyGameEvent (GAME_STATE_UPDATE g) s)
              = (applyGameEvent (GAME_STATE_UPDATE g) s, [])
              ∧ drawnCards_filled playerId count (applyGameEvent (GAME_STATE_UPDATE g) s) = []).
    { intros. apply drawCard_outside_game. right.
      cbn [applyGameEvent with_gameState currentPlayerId]. by rewrite Hid. }
    split; [intros; apply Hsnap|].
    split; [intros; by apply drawCard_outside_game; left|].
    intros; apply Hsnap.
Qed.

Lemma teardown_is_inert_witness :
  (∀ event, event ≠ KICKED_FROM_ROOM →
     applyRoomEvent event (leaveRoom state3) = leaveRoom state3)
  ∧ (∀ playerId card chosenColor,
       playCard playerId card chosenColor (leaveRoom state3) = Normal (leaveRoom state3))
  ∧ (∀ playerId count, drawCard playerId count (leaveRoom state3) = (leaveRoom state3, []))
  ∧ (∀ playerId, callUno playerId (leaveRoom state3) = leaveRoom state3)
  ∧ (∀ start deck, startGame start deck (leaveRoom state3) = (leaveRoom state3, false))
  ∧ (∀ g playerId card chosenColor,
       playCard playerId card chosenColor
         (applyGameEvent (GAME_STATE_UPDATE g) (leaveRoom state3))
       = Normal (applyGameEvent (GAME_STATE_UPDATE g) (leaveRoom state3)))
  ∧ (∀ g playerId count,
       drawCard playerId count (applyGameEvent (GAME_STATE_UPDATE g) (leaveRoom state3))
       = (applyGameEvent (GAME_STATE_UPDATE g) (leaveRoom state3), []))
  ∧ (∀ playerId count, drawnCards_filled playerId count (leaveRoom state3) = [])
  ∧ (∀ g playerId count,
       drawnCards_filled playerId count
         (applyGameEvent (GAME_STATE_UPDATE g) (leaveRoom state3)) = []).
Proof. exact (teardown_is_inert state3 (leaveRoom state3) (or_introl eq_refl)). Defined.

(** X22: a [PLAYER_JOINED] for an id the room does not hold, followed by
    [PLAYER_LEFT] for that id, gives back the state before the two events:
    same entries in the same order, same counter. *)
Theorem join_then_leave_round_trip s player :
  (∀ room, currentRoom s = Some room →
     entries_with_id (RoomPlayer.id player) (Room.players room) = []) →
  applyRoomEvent (PLAYER_LEFT (RoomPlayer.id player))
    (applyRoomEvent (PLAYER_JOINED player) s) = s.
Proof.
  intros Habsent. cbn [applyRoomEvent].
  destruct (currentRoom s) as [room|] eqn:Hroom.
  - cbn [with_currentRoom currentRoom room_with_players Room.players Room.currentPlayers].
    rewrite filter_app, (absent_kept _ _ (Habsent room eq_refl)).
    rewrite filter_cons, decide_False by (intros Hne; by apply Hne).
    rewrite filter_nil, app_nil_r.
    replace (Room.currentPlayers room + 1 - 1) with (Room.currentPlayers room) by lia.
    destruct s, room. simpl in *. by rewrite Hroom.
  - by rewrite Hroom.
Qed.

Lemma join_then_leave_round_trip_witness :
  applyRoomEvent (PLAYER_LEFT "b")
    (applyRoomEvent (PLAYER_JOINED (sampleMember "b")) (inRoom [sampleMember "a"]))
  = inRoom [sampleMember "a"].
Proof.
  apply (join_then_leave_round_trip (inRoom [sampleMember "a"]) (sampleMember "b")).
  intros room Hroom. injection Hroom as <-. reflexivity.
Defined.

(** X23: of two [HOST_CHANGED] events in a row the second one decides: the
    state is the one the second event alone would have produced (so a
    repeated event changes nothing more). *)
Theorem host_changed_last_wins s first second :
  applyRoomEvent (HOST_CHANGED second) (applyRoomEvent (HOST_CHANGED first) s)
  = applyRoomEvent (HOST_CHANGED second) s.
Proof.
  destruct s as [[room|] playerId host rooms busy message connected game]; [|done].
  cbn [applyRoomEvent currentRoom currentPlayerId with_isHost with_currentRoom
       room_with_host Room.players isHost activeRooms loading error isConnected
       gameState Room.id Room.name Room.hostId Room.hostName Room.maxPlayers
       Room.currentPlayers Room.hasPassword Room.password Room.status Room.createdAt
       Room.gameInProgress].
  assert (Hmap : ∀ ps,
            (λ p, set_isHost p (bool_decide (RoomPlayer.id p = second)))
              <$> ((λ p, set_isHost p (bool_decide (RoomPlayer.id p = first))) <$> ps)
            = (λ p, set_isHost p (bool_decide (RoomPlayer.id p = second))) <$> ps).
  { intros ps. rewrite <- list_fmap_compose. apply list_fmap_ext.
    intros i p _. reflexivity. }
  rewrite Hmap. reflexivity.
Qed.

(** X24: [PLAYER_LEFT] removes every entry with the id and no other: the
    remaining entries keep their order and their flags, and [hostId] stays
    as it was, also when it is the host's id that left. *)
Theorem player_left_removes_id s room playerId :
  currentRoom s = Some room →
  ∃ room', currentRoom (applyRoomEvent (PLAYER_LEFT playerId) s) = Some room'
    ∧ entries_with_id playerId (Room.players room') = []
    ∧ (∀ other, other ≠ playerId →
         entries_with_id other (Room.players room') = entries_with_id other (Room.players room))
    ∧ sublist (Room.players room') (Room.players room)
    ∧ Room.hostId room' = Room.hostId room
    ∧ Room.status room' = Room.status room.
Proof.
  intros Hroom. cbn [applyRoomEvent]. rewrite Hroom.
  eexists. split; [reflexivity|]. cbn [room_with_players Room.players Room.hostId Room.status].
  split; [by rewrite left_entries, decide_True|].
  split; [intros other Hother; by rewrite left_entries, decide_False|].
  split; [apply sublist_filter|done].
Qed.

Lemma player_left_removes_id_witness :
  ∃ room', currentRoom (applyRoomEvent (PLAYER_LEFT "a")
                          (inRoom [sampleMember "a"; sampleMember "b"])) = Some room'
    ∧ entries_with_id "a" (Room.players room') = []
    ∧ (∀ other, other ≠ "a" →
         entries_with_id other (Room.players room')
         = entries_with_id other [sampleMember "a"; sampleMember "b"])
    ∧ sublist (Room.players room') [sampleMember "a"; sampleMember "b"]
    ∧ Room.hostId room' = "a"
    ∧ Room.status room' = status_waiting.
Proof.
  exact (player_left_removes_id (inRoom [sampleMember "a"; sampleMember "b"])
           (sampleRoom [sampleMember "a"; sampleMember "b"]) "a" eq_refl).
Defined.

(** X25: no room event creates a room or a game.  Every room event leaves
    the listing, [loading] and [isConnected] alone; every one but the kick
    also leaves the game, the player id and [error] alone, and the client
    has a room afterwards exactly when it had one before. *)
Theorem room_events_frame event s :
  activeRooms (applyRoomEvent event s) = activeRooms s
  ∧ loading (applyRoomEvent event s) = loading s
  ∧ isConnected (applyRoomEvent event s) = isConnected s
  ∧ (currentRoom s = None → currentRoom (applyRoomEvent event s) = None)
  ∧ (gameState s = None → gameState (applyRoomEvent event s) = None)
  ∧ (event ≠ KICKED_FROM_ROOM →
       gameState (applyRoomEvent event s) = gameState s
       ∧ currentPlayerId (applyRoomEvent event s) = currentPlayerId s
       ∧ error (applyRoomEvent event s) = error s
       ∧ (is_Some (currentRoom (applyRoomEvent event s)) ↔ is_Some (currentRoom s))).
Proof.
  destruct event; cbn [applyRoomEvent];
    try (destruct (currentRoom s) as [room0|] eqn:Hroom);
    cbn [with_isHost with_currentRoom activeRooms loading isConnected currentRoom
         gameState currentPlayerId error];
    rewrite ?Hroom; repeat split; try done; eauto.
Qed.

(** X26: polling, the global stream, [clearError] and the game events other
    than a snapshot never touch room, player id, host flag or game; a
    snapshot replaces the game and nothing else. *)
Theorem background_updates_frame s :
  (∀ event, session (applyGlobalEvent event s) = session s)
  ∧ (∀ connected listing, session (loadActiveRooms connected listing s) = session s)
  ∧ (∀ connected, session (checkConnection connected s) = session s)
  ∧ session (clearError s) = session s
  ∧ (∀ event, (∀ g, event ≠ GAME_STATE_UPDATE g) → applyGameEvent event s = s)
  ∧ (∀ g, applyGameEvent (GAME_STATE_UPDATE g) s
          = mkState (currentRoom s) (currentPlayerId s) (isHost s) (activeRooms s)
              (loading s) (error s) (isConnected s) (Some g)).
Proof.
  split; [by intros []|].
  split; [by intros [] []|].
  split; [done|]. split; [done|].
  split; [|done].
  intros [g| | | |] Hevent; try done. by destruct (Hevent g).
Qed.

End Reconcile.
